(** * The PCA notebook (2-PCA.ipynb) as a pipeline of frame transformations

    The notebook sequences a handful of pandas operations (column
    selection by position, column removal by name, [set_index], the
    element-wise shift [nutr_df + 1], a loop that fills a fresh frame column
    by column, the construction of a frame from an array and an index,
    [join]) around four calls into numerical libraries (scipy's [boxcox],
    scikit-learn's [StandardScaler], [PCA] and [KMeans]).

    The pandas operations are embedded below on a column-major model of a
    DataFrame: an index (the row labels) and an ordered list of labelled
    columns.  Finite doubles are rational numbers, so the cells of the
    table read from the CSV file hold [Q]; the shift by one is taken with
    the arithmetic of the column's dtype (an [int64] sum wraps around, a
    [float64] sum is rounded to the nearest double), since the tests of
    the power transform depend on it; the results of the power transform
    and everything after it are real numbers ([R]), the usual idealisation
    of floating point. *)

From Stdlib Require Import DecimalString String ZArith QArith Qround Qpower Qabs Qreals Reals Psatz Lia Bool Arith List Permutation.
Import ListNotations.

Close Scope R_scope.
Close Scope Q_scope.
Open Scope nat_scope.

Set Implicit Arguments.

(** ** Errors *)

(** The Python exceptions the modelled operations raise.  [NumericError] is
    the name the pipeline description gives to the [ValueError] of the power
    transform ("Data must be positive"). *)
Inductive error : Type :=
| KeyError
| IndexError
| ValueError
| NumericError.

Inductive result (A : Type) : Type :=
| Ok (a : A)
| Error (e : error).

Arguments Ok {A} a.
Arguments Error {A} e.

Definition bind {A B : Type} (r : result A) (k : A -> result B) : result B :=
  match r with
  | Ok a => k a
  | Error e => Error e
  end.

Notation "x <- r ;; k" := (bind r (fun x => k))
  (at level 61, r at next level, right associativity).

(** ** Values and labels *)

(** A cell of the table read from the CSV file: a missing value, a number
    or a text. *)
Inductive value : Type :=
| NaN
| Num (q : Q)
| Str (s : string).

(** Column labels: the names of the CSV header, or the positions [0..k-1] a
    frame built from a bare array gets. *)
Inductive clabel : Type :=
| CInt (n : nat)
| CStr (s : string).

Definition clabel_eqb (a b : clabel) : bool :=
  match a, b with
  | CInt n, CInt m => Nat.eqb n m
  | CStr s, CStr t => String.eqb s t
  | _, _ => false
  end.

(** Row labels are cell values ([set_index] turns a column into the index).
    Missing labels match each other, as in pandas joins. *)
Definition value_eqb (a b : value) : bool :=
  match a, b with
  | NaN, NaN => true
  | Num p, Num q => Qeq_bool p q
  | Str s, Str t => String.eqb s t
  | _, _ => false
  end.

(** ** DataFrames *)

Record DataFrame (A : Type) : Type := mkDF {
  index : list value;
  columns : list (clabel * list A)
}.

Arguments mkDF {A} index columns.

Definition names {A} (df : DataFrame A) : list clabel := map fst (columns df).

Definition has_label {A} (name : clabel) (c : clabel * list A) : bool :=
  clabel_eqb (fst c) name.

(** [df.loc[:, name]] used as a one-dimensional array: an absent label is a
    [KeyError]; a label carried by several columns selects a sub-frame,
    which the consumers here ([set_index], [boxcox]) refuse. *)
Definition loc_col {A} (df : DataFrame A) (name : clabel) : result (list A) :=
  match filter (has_label name) (columns df) with
  | [] => Error KeyError
  | [c] => Ok (snd c)
  | _ :: _ :: _ => Error ValueError
  end.

(** [df.iloc[:, ps]] for a list of positions: a position past the last
    column is an [IndexError]. *)
Fixpoint take_positions {A} (l : list A) (ps : list nat) : result (list A) :=
  match ps with
  | [] => Ok []
  | p :: ps' =>
      match nth_error l p with
      | None => Error IndexError
      | Some c => cs <- take_positions l ps' ;; Ok (c :: cs)
      end
  end.

Definition iloc_cols {A} (df : DataFrame A) (ps : list nat) : result (DataFrame A) :=
  cs <- take_positions (columns df) ps ;;
  Ok (mkDF (index df) cs).

(** [df.iloc[:, :-k]]: a slice never fails, it keeps the first
    [len - k] columns (none when there are fewer than [k]). *)
Definition iloc_drop_last {A} (df : DataFrame A) (k : nat) : DataFrame A :=
  mkDF (index df) (firstn (length (columns df) - k) (columns df)).

(** [df.drop(labels, axis=1)]: every label has to be present
    ([KeyError] otherwise); all the columns carrying one of them go. *)
Definition drop_cols {A} (df : DataFrame A) (labels : list clabel) : result (DataFrame A) :=
  if forallb (fun l => existsb (has_label l) (columns df)) labels
  then Ok (mkDF (index df)
             (filter (fun c => negb (existsb (clabel_eqb (fst c)) labels)) (columns df)))
  else Error KeyError.

(** [df.set_index(name)]: the column becomes the index and leaves the
    columns. *)
Definition set_index (df : DataFrame value) (name : clabel) : result (DataFrame value) :=
  ix <- loc_col df name ;;
  Ok (mkDF ix (filter (fun c => negb (has_label name c)) (columns df))).

(** ** Cleaner *)

Definition notnull (v : value) : bool :=
  match v with
  | NaN => false
  | _ => true
  end.

Definition row_notnull (df : DataFrame value) (i : nat) : bool :=
  forallb (fun c => match nth_error (snd c) i with
                    | Some v => notnull v
                    | None => true
                    end) (columns df).

Definition dropna_mask (df : DataFrame value) : list bool :=
  map (row_notnull df) (seq 0 (length (index df))).

(** Boolean row selection: the entries of [l] at the positions where the
    mask holds. *)
Definition take_rows {A} (mask : list bool) (l : list A) : list A :=
  map snd (filter fst (combine mask l)).

(** Modelled from the spec: the cell that drops the rows with missing values
    is an exercise the notebook leaves blank (it holds the comment
    "Run the code to drop all null and NaN values" only); this is the
    Cleaner of the pipeline description, "removes any row containing a
    missing value in any column (no imputation)", that is [df.dropna()]. *)
Definition dropna (df : DataFrame value) : DataFrame value :=
  let m := dropna_mask df in
  mkDF (take_rows m (index df))
       (map (fun c => (fst c, take_rows m (snd c))) (columns df)).

(** ** Column split *)

Definition NDB_No : clabel := CStr "NDB_No"%string.
Definition FoodGroup : clabel := CStr "FoodGroup"%string.
Definition Shrt_Desc : clabel := CStr "Shrt_Desc"%string.

(** [[0, 1, 2]+[i for i in range(50,54)]] *)
Definition desc_positions : list nat := [0; 1; 2] ++ seq 50 4.

(** [desc_df = df.iloc[:, [0, 1, 2]+[i for i in range(50,54)]]] *)
Definition desc_cols (df : DataFrame value) : result (DataFrame value) :=
  iloc_cols df desc_positions.

(** ... followed by [desc_df.set_index('NDB_No', inplace=True)]. *)
Definition split_desc (df : DataFrame value) : result (DataFrame value) :=
  d <- desc_cols df ;;
  set_index d NDB_No.

(** [nutr_df = df.iloc[:, :-5]] then
    [nutr_df = nutr_df.drop(['FoodGroup', 'Shrt_Desc'], axis=1)]. *)
Definition nutr_cols (df : DataFrame value) : result (DataFrame value) :=
  drop_cols (iloc_drop_last df 5) [FoodGroup; Shrt_Desc].

(** ... followed by [nutr_df.set_index('NDB_No', inplace=True)], the
    solution the notebook gives for its exercise cell. *)
Definition split_nutr (df : DataFrame value) : result (DataFrame value) :=
  n <- nutr_cols df ;;
  set_index n NDB_No.

(** ** Numerical library *)

(** A two-dimensional array, stored by columns: the [j]-th element is the
    column [X[:, j]]. *)
Definition matrix : Type := list (list R).

(** The numerical routines of scipy and scikit-learn the notebook calls and
    whose code is not part of it: the search for the exponent of the power
    transform, the principal component analysis and k-means. *)
Record NumericLibrary : Type := {
  boxcox_normmax : list Q -> R;
  pca_fit_transform : matrix -> matrix;
  pca_components : matrix -> list (list R);
  kmeans_labels : nat -> Z -> matrix -> list nat
}.

(** Modelled from the spec: scipy's [special.boxcox] is not part of the
    notebook; "value -> (value^lambda - 1)/lambda when lambda <> 0, or
    value -> ln(value) when lambda = 0". *)
Definition special_boxcox (x lmbda : R) : R :=
  if Req_dec_T lmbda 0 then ln x else ((Rpower x lmbda - 1) / lmbda)%R.

(** Modelled from the spec: the column scipy's [stats.boxcox] returns when
    it does not fail; it "finds a per-column exponent" from the values of
    the column and transforms every value with it. *)
Definition transformed (lib : NumericLibrary) (x : list Q) : list R :=
  map (fun v => special_boxcox (Q2R v) (boxcox_normmax lib x)) x.

(** [np.all(x == x[0])], on an array that is not empty. *)
Definition is_constant (x : list Q) : bool :=
  match x with
  | [] => false
  | x0 :: _ => forallb (fun v => Qeq_bool v x0) x
  end.

(** What [stats.boxcox] returns: the array it was given when that array is
    empty, the transformed array together with the exponent otherwise. *)
Inductive boxcox_output : Type :=
| EmptyArray
| Fitted (y : list R) (lmax : R).

(** Modelled from the spec: scipy's [stats.boxcox] is not part of the
    notebook; it "fails with a NumericError if any input to this step is
    non-positive".  Beyond the words of the spec, scipy first returns an
    empty array as it is, without an exponent, and then refuses a constant
    array with the same exception ("Data must not be constant") before it
    looks at the signs. *)
Definition boxcox (lib : NumericLibrary) (x : list Q) : result boxcox_output :=
  match x with
  | [] => Ok EmptyArray
  | _ :: _ =>
      if is_constant x then Error NumericError
      else if existsb (fun v => Qle_bool v 0) x then Error NumericError
      else Ok (Fitted (transformed lib x) (boxcox_normmax lib x))
  end.

(** [boxcox(...)[0]]: the transformed array of a fitted result; the empty
    array has no item 0. *)
Definition getitem0 (out : boxcox_output) : result (list R) :=
  match out with
  | EmptyArray => Error IndexError
  | Fitted y _ => Ok y
  end.

Definition Rsum (x : list R) : R := fold_right Rplus 0%R x.

Definition mean (x : list R) : R := (Rsum x / INR (length x))%R.

(** Population variance and standard deviation (no sample correction). *)
Definition var (x : list R) : R :=
  mean (map (fun v => ((v - mean x) * (v - mean x))%R) x).

Definition std (x : list R) : R := sqrt (var x).

(** Modelled from the spec: scikit-learn's [StandardScaler] is not part of
    the notebook; for one column, "subtract the column mean and divide by
    the column standard deviation", with "population statistics, not
    sample-corrected". *)
Definition scale_column (x : list R) : list R :=
  map (fun v => ((v - mean x) / std x)%R) x.

(** Modelled from the spec: [StandardScaler().fit_transform(X)], the
    scaling "for each column of the transformed matrix". *)
Definition StandardScaler_fit_transform (X : matrix) : matrix :=
  map scale_column X.

(** ** Normalizer *)

(** A cell of a numeric column, of dtype [int64] or [float64] (a finite
    double is a rational number). *)
Inductive number : Type :=
| I64 (z : Z)
| F64 (q : Q).

(** The wrap-around of [int64] arithmetic (two's complement). *)
Definition wrap64 (z : Z) : Z := ((z + 2 ^ 63) mod 2 ^ 64 - 2 ^ 63)%Z.

(** [floor (log2 |q|)], for a rational that is not 0: the quotient of the
    leading powers of two of the numerator and of the denominator, or one
    less. *)
Definition Qlog2 (q : Q) : Z :=
  let e := (Z.log2 (Z.abs (Qnum q)) - Z.log2 (Zpos (Qden q)))%Z in
  if Qle_bool (2 ^ e) (Qabs q) then e else (e - 1)%Z.

(** The nearest integer, the even one of the two when they are equally
    near. *)
Definition round_half_even (q : Q) : Z :=
  let f := Qfloor q in
  match (q - inject_Z f ?= 1 # 2)%Q with
  | Lt => f
  | Gt => (f + 1)%Z
  | Eq => if Z.even f then f else (f + 1)%Z
  end.

(** The double nearest to a rational number (53 significant bits, ties to
    even), as a reduced fraction.  The exponent is not bounded: this is
    what the hardware returns as long as the result neither overflows nor
    falls among the subnormal numbers, which the sum of a finite double
    and 1 never does. *)
Definition round_double (q : Q) : Q :=
  if Qeq_bool q 0 then 0%Q
  else let ulp := (2 ^ (Qlog2 q - 52))%Q in
       Qred (inject_Z (round_half_even (q / ulp)) * ulp).

(** [v + k] for a Python integer [k]: an [int64] cell stays an [int64] and
    wraps around silently, a [float64] cell stays a [float64] and holds the
    rounded sum. *)
Definition add_number (v : number) (k : Z) : number :=
  match v with
  | I64 z => I64 (wrap64 (z + k))
  | F64 q => F64 (round_double (q + inject_Z k))
  end.

(** [nutr_df = nutr_df + 1] *)
Definition add_scalar (df : DataFrame number) (k : Z) : DataFrame number :=
  mkDF (index df)
       (map (fun c => (fst c, map (fun v => add_number v k) (snd c))) (columns df)).

(** The number a numeric cell stands for. *)
Definition number_value (v : number) : Q :=
  match v with
  | I64 z => inject_Z z
  | F64 q => q
  end.

(** The values of a numeric frame, as the comparisons and the power
    transform read them. *)
Definition float_values (df : DataFrame number) : DataFrame Q :=
  mkDF (index df) (map (fun c => (fst c, map number_value (snd c))) (columns df)).

(** [str(col)] *)
Definition label_str (c : clabel) : string :=
  match c with
  | CStr s => s
  | CInt n => NilEmpty.string_of_uint (Nat.to_uint n)
  end.

(** ['{}_TF'.format(col)] *)
Definition TF (c : clabel) : clabel := CStr (label_str c ++ "_TF").

(** [df[name] = v] for an array [v]: the length has to be that of the index
    ([ValueError] otherwise); an existing label is overwritten in place, a
    new one is appended as the last column. *)
Definition setitem {A} (df : DataFrame A) (name : clabel) (v : list A)
  : result (DataFrame A) :=
  if Nat.eqb (length v) (length (index df)) then
    Ok (mkDF (index df)
          (if existsb (has_label name) (columns df)
           then map (fun c => if has_label name c then (fst c, v) else c) (columns df)
           else columns df ++ [(name, v)]))
  else Error ValueError.

(** The body of
    [for col in nutr_df.columns.values:
       nutr_df_TF['{}_TF'.format(col)] = boxcox(nutr_df.loc[:, col])[0]]
    over the columns still to visit; nothing catches an exception. *)
Fixpoint boxcox_loop (lib : NumericLibrary) (nutr_df : DataFrame Q)
    (cols : list clabel) (nutr_df_TF : DataFrame R) : result (DataFrame R) :=
  match cols with
  | [] => Ok nutr_df_TF
  | col :: rest =>
      x <- loc_col nutr_df col ;;
      out <- boxcox lib x ;;
      y <- getitem0 out ;;
      nutr_df_TF' <- setitem nutr_df_TF (TF col) y ;;
      boxcox_loop lib nutr_df rest nutr_df_TF'
  end.

(** [nutr_df_TF = pd.DataFrame(index=nutr_df.index)] and the loop. *)
Definition power_transform (lib : NumericLibrary) (nutr_df : DataFrame Q)
  : result (DataFrame R) :=
  boxcox_loop lib nutr_df (names nutr_df) (mkDF (index nutr_df) []).

(** The array a frame is turned into when it is handed to scikit-learn. *)
Definition to_numpy (df : DataFrame R) : matrix := map snd (columns df).

(** The cells from [nutr_df = nutr_df + 1] to [pca = fit.fit_transform(nutr_df_TF)]. *)
Definition normalize_reduce (lib : NumericLibrary) (nutr_df : DataFrame number)
  : result matrix :=
  nutr_df_TF <- power_transform lib (float_values (add_scalar nutr_df 1)) ;;
  Ok (pca_fit_transform lib (StandardScaler_fit_transform (to_numpy nutr_df_TF))).

(** [pd.Series(data, index=ix)]: the [j]-th entry is labelled by the [j]-th
    label; the lengths have to agree. *)
Definition Series {A} (data : list A) (ix : list clabel) : result (list (clabel * A)) :=
  if Nat.eqb (length data) (length ix) then Ok (combine ix data)
  else Error ValueError.

(** [vects = fit.components_[:5]] and
    [pd.Series(vects[k], index=nutr_df.columns)], where [fit] was fitted on
    the array [X]. *)
Definition component_loadings (lib : NumericLibrary) (X : matrix)
    (nutr_df : DataFrame Q) (k : nat) : result (list (clabel * R)) :=
  match nth_error (firstn 5 (pca_components lib X)) k with
  | None => Error IndexError
  | Some v => Series v (names nutr_df)
  end.

(** [KMeans(n_clusters=3, random_state=13)] fitted on [pca[:, :5]]; its
    [labels_]. *)
Definition grouper (lib : NumericLibrary) (pca : matrix) : list nat :=
  kmeans_labels lib 3 13%Z (firstn 5 pca).

(** ** Presentation *)

(** A cell of the final frame: a coordinate on a principal component, a
    cluster number or a descriptive value. *)
Inductive cell : Type :=
| Coord (r : R)
| Cluster (k : nat)
| Desc (v : value).

Definition map_cells {A B} (f : A -> B) (df : DataFrame A) : DataFrame B :=
  mkDF (index df) (map (fun c => (fst c, map f (snd c))) (columns df)).

(** [X[:, :k]] *)
Definition slice_cols (X : matrix) (k : nat) : matrix := firstn k X.

(** [pd.DataFrame(X, index=ix)]: the rows of the array are labelled by
    [ix], whose length has to be the number of rows ([ValueError]
    otherwise); the columns are labelled by their positions. *)
Definition DataFrame_of_array {A} (X : list (list A)) (ix : list value)
  : result (DataFrame A) :=
  if forallb (fun c => Nat.eqb (length c) (length ix)) X
  then Ok (mkDF ix (combine (map CInt (seq 0 (length X))) X))
  else Error ValueError.

(** The positions of the rows labelled [lab]. *)
Definition locate (ix : list value) (lab : value) : list nat :=
  map fst (filter (fun p => value_eqb (snd p) lab) (combine (seq 0 (length ix)) ix)).

(** The rows of a left join on the index: every left row, in order, once
    for each right row that carries its label, and once with nothing on the
    right when there is none. *)
Definition join_rows (l r : list value) : list (nat * option nat) :=
  flat_map (fun i => match locate r (nth i l NaN) with
                     | [] => [(i, None)]
                     | js => map (fun j => (i, Some j)) js
                     end) (seq 0 (length l)).

(** [left.join(right)]: a left join on the index; a common column label is
    a [ValueError] (no suffix is given); [na] fills the right-hand cells of
    a left row without a partner. *)
Definition join {A} (na : A) (left right : DataFrame A) : result (DataFrame A) :=
  if existsb (fun c => existsb (has_label (fst c)) (columns right)) (columns left)
  then Error ValueError
  else
    let rows := join_rows (index left) (index right) in
    Ok (mkDF (map (fun p => nth (fst p) (index left) NaN) rows)
          (map (fun c => (fst c, map (fun p => nth (fst p) (snd c) na) rows))
               (columns left)
           ++ map (fun c => (fst c,
                             map (fun p => match snd p with
                                           | Some j => nth j (snd c) na
                                           | None => na
                                           end) rows))
                  (columns right))).

Definition Cluster_col : clabel := CStr "Cluster".

(** [pca_df = pd.DataFrame(pca[:, :5], index=desc_df.index)]: the frame of
    the five retained components. *)
Definition projected (desc_df : DataFrame value) (pca : matrix) : result (DataFrame R) :=
  DataFrame_of_array (slice_cols pca 5) (index desc_df).

(** The final frame: [pca_df] again, then
    [pca_df['Cluster'] = kmeansmodel.labels_] and
    [pca_df = pca_df.join(desc_df)]. *)
Definition clustered (desc_df : DataFrame value) (pca : matrix) (labels : list nat)
  : result (DataFrame cell) :=
  pca_df <- projected desc_df pca ;;
  pca_df <- setitem (map_cells Coord pca_df) Cluster_col (map Cluster labels) ;;
  join (Desc NaN) pca_df (map_cells Desc desc_df).

(** ** Frames as [read_csv] makes them *)

Definition is_header (c : clabel) : Prop :=
  match c with
  | CStr _ => True
  | CInt _ => False
  end.

(** The labels are distinct names of the CSV header ([read_csv] renames
    repeated ones) and every column has one cell per row. *)
Definition well_formed {A} (df : DataFrame A) : Prop :=
  NoDup (names df) /\
  Forall is_header (names df) /\
  Forall (fun c => length (snd c) = length (index df)) (columns df).

(** Some value of the frame is not positive. *)
Definition has_nonpositive (df : DataFrame Q) : Prop :=
  exists c v, In c (columns df) /\ In v (snd c) /\ (v <= 0)%Q.

(** Some column of the frame is constant. *)
Definition has_constant (df : DataFrame Q) : Prop :=
  exists c, In c (columns df) /\ is_constant (snd c) = true.

(** A numeric cell the shift by one makes positive: greater than -1 and,
    for an [int64], smaller than the largest [int64]. *)
Definition shiftable (v : number) : Prop :=
  match v with
  | I64 z => (0 <= z < 2 ^ 63 - 1)%Z
  | F64 q => (-1 < q)%Q
  end.

(** ** Sample data *)

(** Decides that the labels of a list are distinct. *)
Fixpoint distinctb (l : list clabel) : bool :=
  match l with
  | [] => true
  | a :: r => negb (existsb (clabel_eqb a) r) && distinctb r
  end.

(** A header of 54 columns laid out as the notebook expects it: the
    identifier and the two text columns first, 46 nutrient columns, and
    five trailing columns. *)
Definition sample_header : list clabel :=
  [NDB_No; FoodGroup; Shrt_Desc]
  ++ map (fun i => CStr ("Nutrient_" ++ label_str (CInt i))) (seq 3 46)
  ++ map CStr ["GmWt_1"; "GmWt_Desc1"; "GmWt_2"; "GmWt_Desc2"; "Refuse_Pct"]%string.

Definition sample_cell (i r : nat) : value :=
  match i with
  | 0 => Num (inject_Z (Z.of_nat (1001 + r)))
  | 1 => Str "Dairy and Egg Products"
  | 2 => Str "BUTTER"
  | 50 | 52 => Str "1 cup"
  | _ => if Nat.eqb i 5 && Nat.eqb r 1 then NaN
         else Num (inject_Z (Z.of_nat (i * r)))
  end.

(** Three rows, the second of which misses one nutrient. *)
Definition sample_table : DataFrame value :=
  mkDF [Num 0; Num 1; Num 2]
       (combine sample_header
                (map (fun i => map (sample_cell i) [0; 1; 2]) (seq 0 54))).

(** Coordinates on six components for the two complete rows. *)
Definition sample_pca : matrix :=
  map (fun j => [INR j; (- INR j)%R]) (seq 0 6).

(** Two rows of a cleaned numeric frame (some nutrients are absent from a
    food: the value is 0). *)
Definition sample_nutr : DataFrame Q :=
  mkDF [Num 1001; Num 1003]
       [(CStr "Water_(g)", [15.87; 0]%Q);
        (CStr "Energ_Kcal", [717; 876]%Q);
        (CStr "Protein_(g)", [0.85; 0.28]%Q)].

(** Two rows of a cleaned numeric frame (some nutrients are absent from a
    food: the value is 0), with the dtypes [read_csv] gives them. *)
Definition sample_numbers : DataFrame number :=
  mkDF [Num 1001; Num 1003]
       [(CStr "Water_(g)", [F64 15.875; F64 0]);
        (CStr "Energ_Kcal", [I64 717; I64 876]);
        (CStr "Protein_(g)", [F64 0.75; F64 0.25])].

(** Its values once shifted by one. *)
Definition shifted_nutr : DataFrame Q := float_values (add_scalar sample_numbers 1).

(** A numeric frame with a value the shift by one does not make positive. *)
Definition negative_nutr : DataFrame number :=
  mkDF [Num 1001; Num 1003]
       [(CStr "Water_(g)", [F64 15.875; F64 (-1)])].

(** A numeric frame of positive doubles that differ by less than the
    rounding of their sum with 1 (the second one is [2^-60]). *)
Definition rounded_nutr : DataFrame number :=
  mkDF [Num 1001; Num 1003]
       [(CStr "Water_(g)", [F64 15.875; F64 0.25]);
        (CStr "Vit_D_mcg", [F64 0; F64 (1 # 1152921504606846976)])].

(** A numeric frame with the largest [int64] value. *)
Definition overflow_nutr : DataFrame number :=
  mkDF [Num 1001; Num 1003]
       [(CStr "Energ_Kcal", [I64 717; I64 9223372036854775807])].

(** A frame of positive values with a constant column. *)
Definition constant_nutr : DataFrame Q :=
  mkDF [Num 1001; Num 1003]
       [(CStr "Water_(g)", [15.87; 0.12]%Q);
        (CStr "Refuse_Pct", [2; 2]%Q)].

(** A frame with its columns and no row. *)
Definition no_rows_nutr : DataFrame Q :=
  mkDF [] [(CStr "Water_(g)", [])].

(** A stand-in for the numerical routines, to run the pipeline on the sample
    data: the exponent 0 (the logarithm) for every column, components that
    are the columns themselves, and one cluster. *)
Definition sample_library : NumericLibrary :=
  {| boxcox_normmax := fun _ => 0%R;
     pca_fit_transform := fun X => X;
     pca_components := fun X => map (fun c => map (fun _ => 0%R) X) X;
     kmeans_labels := fun _ _ X => map (fun _ => 0) (hd [] X) |}.

(** An array of two rows and two columns, the second column constant. *)
Definition sample_array : matrix := [[1; 3]; [2; 2]]%R.

(** ** Shape of a frame *)

(** Every column has one cell per row label. *)
Definition rectangular {A} (df : DataFrame A) : Prop :=
  Forall (fun c => length (snd c) = length (index df)) (columns df).

(** No two rows carry the same label. *)
Fixpoint unique_labels (l : list value) : bool :=
  match l with
  | [] => true
  | a :: r => negb (existsb (value_eqb a) r) && unique_labels r
  end.

(** Row [i] of a frame: its label and its cells, column by column ([d]
    stands for a cell that is not there). *)
Definition row_at {A} (d : A) (df : DataFrame A) (i : nat) : value * list A :=
  (nth i (index df) NaN, map (fun c => nth i (snd c) d) (columns df)).

(** The rows of a frame, from the first to the last. *)
Definition rows {A} (d : A) (df : DataFrame A) : list (value * list A) :=
  map (row_at d df) (seq 0 (length (index df))).

(** Row [i] of the left frame next to row [j] of the right frame, or next
    to cells filled with [na] when it has no partner. *)
Definition joined_row {A} (na : A) (left right : DataFrame A) (i : nat)
    (partner : option nat) : value * list A :=
  (nth i (index left) NaN,
   map (fun c => nth i (snd c) na) (columns left)
   ++ map (fun c => match partner with
                    | Some j => nth j (snd c) na
                    | None => na
                    end) (columns right)).

(** ** The frame of the components *)

(** [df.rename(columns=mapping)]: a label that is a key of the mapping is
    replaced by its image, the other labels stay; a key that labels no
    column is ignored. *)
Fixpoint lookup_label (mapping : list (clabel * clabel)) (c : clabel) : clabel :=
  match mapping with
  | [] => c
  | (k, v) :: rest => if clabel_eqb k c then v else lookup_label rest c
  end.

Definition rename {A} (df : DataFrame A) (mapping : list (clabel * clabel))
  : DataFrame A :=
  mkDF (index df) (map (fun c => (lookup_label mapping (fst c), snd c)) (columns df)).

(** [['FoodGroup', 'GmWt_Desc1', 'GmWt_2', 'GmWt_Desc2', 'Refuse_Pct', 'Shrt_Desc']] *)
Definition desc_labels : list clabel :=
  map CStr ["FoodGroup"; "GmWt_Desc1"; "GmWt_2"; "GmWt_Desc2"; "Refuse_Pct";
            "Shrt_Desc"]%string.

(** [{0:'c1', 1:'c2', 2:'c3', 3:'c4', 4:'c5'}] *)
Definition component_names : list (clabel * clabel) :=
  [(CInt 0, CStr "c1"); (CInt 1, CStr "c2"); (CInt 2, CStr "c3");
   (CInt 3, CStr "c4"); (CInt 4, CStr "c5")].

(** [pca_df = pd.DataFrame(pca[:, :5], index=desc_df.index)], then
    [pca_df = pca_df.join(desc_df)],
    [pca_df.drop([...], axis=1, inplace=True)] and
    [pca_df.rename(columns={...}, inplace=True)]. *)
Definition components_frame (desc_df : DataFrame value) (pca : matrix)
  : result (DataFrame cell) :=
  pca_df <- projected desc_df pca ;;
  pca_df <- join (Desc NaN) (map_cells Coord pca_df) (map_cells Desc desc_df) ;;
  pca_df <- drop_cols pca_df desc_labels ;;
  Ok (rename pca_df component_names).

(** ** Listing a cluster *)

(** [cell == k] for an integer [k]. *)
Definition cell_eqb_nat (c : cell) (k : nat) : bool :=
  match c with
  | Cluster j => Nat.eqb j k
  | Coord r => if Req_dec_T r (INR k) then true else false
  | Desc (Num q) => Qeq_bool q (inject_Z (Z.of_nat k))
  | Desc _ => false
  end.

(** [df.loc[mask]] for the boolean series [mask] made from a column of [df]. *)
Definition loc_rows {A} (df : DataFrame A) (mask : list bool) : DataFrame A :=
  mkDF (take_rows mask (index df))
       (map (fun c => (fst c, take_rows mask (snd c))) (columns df)).

(** [pca_df.loc[pca_df['Cluster'] == k]['Shrt_Desc'][:500]]: the labelled
    descriptions of the first 500 rows of cluster [k]. *)
Definition cluster_listing (pca_df : DataFrame cell) (k : nat)
  : result (list (value * cell)) :=
  cl <- loc_col pca_df Cluster_col ;;
  let rows := loc_rows pca_df (map (fun c => cell_eqb_nat c k) cl) in
  sd <- loc_col rows Shrt_Desc ;;
  Ok (firstn 500 (combine (index rows) sd)).

(** ** Explained variance *)

(** [x.cumsum()]: the running sums of [x], started from [acc]. *)
Fixpoint cumsum_from (acc : R) (x : list R) : list R :=
  match x with
  | [] => []
  | a :: rest => (acc + a)%R :: cumsum_from (acc + a)%R rest
  end.

Definition cumsum (x : list R) : list R := cumsum_from 0%R x.

(** [fit.explained_variance_ratio_[:5].sum()] *)
Definition retained_variance (ratio : list R) : R := Rsum (firstn 5 ratio).

(** [X.mean()]: the mean of all the entries of the array. *)
Definition array_mean (X : matrix) : R := mean (concat X).

(** ** More sample data *)

(** A table of three columns: too short for the positional split. *)
Definition short_table : DataFrame value :=
  mkDF [Num 0; Num 1]
       [(NDB_No, [Num 1001; Num 1002]);
        (FoodGroup, [Str "Dairy and Egg Products"; Str "Spices and Herbs"]);
        (Shrt_Desc, [Str "BUTTER"; Str "ALLSPICE"])].

(** A descriptive frame with the six columns the notebook names. *)
Definition sample_desc : DataFrame value :=
  mkDF [Num 1001; Num 1003]
       [(FoodGroup, [Str "Dairy and Egg Products"; Str "Dairy and Egg Products"]);
        (Shrt_Desc, [Str "BUTTER"; Str "CHEESE"]);
        (CStr "GmWt_Desc1", [Str "1 cup"; Str "1 oz"]);
        (CStr "GmWt_2", [Num 5; Num 17]);
        (CStr "GmWt_Desc2", [Str "1 pat"; Str "1 cubic inch"]);
        (CStr "Refuse_Pct", [Num 0; Num 0])].

(** A sequence of explained-variance ratios. *)
Definition sample_ratio : list R := [0.5; 0.25; 0.125; 0.0625; 0.0625; 0]%R.

(** * Properties *)

(** ** Row selection *)

Lemma take_rows_nil_l {A} (l : list A) : take_rows [] l = [].
Proof. reflexivity. Qed.

Lemma take_rows_cons {A} (b : bool) (m : list bool) (a : A) (l : list A) :
  take_rows (b :: m) (a :: l) = if b then a :: take_rows m l else take_rows m l.
Proof. unfold take_rows; simpl; destruct b; reflexivity. Qed.

Lemma take_rows_In {A} (m : list bool) (l : list A) (v : A) :
  In v (take_rows m l) ->
  exists i, nth_error m i = Some true /\ nth_error l i = Some v.
Proof.
  revert l; induction m as [|b m IH]; intros [|a l] H; try contradiction.
  rewrite take_rows_cons in H.
  destruct b.
  - destruct H as [<-|H].
    + exists 0; split; reflexivity.
    + destruct (IH _ H) as [i [Hm Hl]]. exists (S i); split; assumption.
  - destruct (IH _ H) as [i [Hm Hl]]. exists (S i); split; assumption.
Qed.

Lemma take_rows_all_true {A} (m : list bool) (l : list A) :
  Forall (fun b => b = true) m -> length l <= length m -> take_rows m l = l.
Proof.
  intros Hm; revert l; induction Hm as [|b m Hb Hm IH]; intros [|a l] Hlen;
    try reflexivity.
  - simpl in Hlen; lia.
  - rewrite take_rows_cons, Hb. f_equal. apply IH. simpl in Hlen; lia.
Qed.

Lemma take_rows_length_le {A B} (m : list bool) (l : list A) (l' : list B) :
  length m <= length l' -> length (take_rows m l) <= length (take_rows m l').
Proof.
  revert l l'; induction m as [|b m IH]; intros l l' Hlen.
  - rewrite !take_rows_nil_l; reflexivity.
  - destruct l' as [|a' l']; [simpl in Hlen; lia|].
    destruct l as [|a l].
    + unfold take_rows at 1; simpl. lia.
    + rewrite !take_rows_cons. simpl in Hlen.
      specialize (IH l l' ltac:(lia)).
      destruct b; simpl; lia.
Qed.

Lemma dropna_mask_length (df : DataFrame value) :
  length (dropna_mask df) = length (index df).
Proof. unfold dropna_mask. rewrite length_map, length_seq. reflexivity. Qed.

Lemma dropna_mask_nth (df : DataFrame value) (i : nat) :
  nth_error (dropna_mask df) i = Some true -> row_notnull df i = true.
Proof.
  unfold dropna_mask. intros H.
  rewrite nth_error_map in H.
  destruct (nth_error (seq 0 (length (index df))) i) as [k|] eqn:E; [|discriminate].
  assert (Hi : i < length (seq 0 (length (index df)))).
  { apply nth_error_Some. rewrite E. discriminate. }
  rewrite length_seq in Hi.
  rewrite nth_error_nth' with (d := 0) in E by (rewrite length_seq; exact Hi).
  rewrite seq_nth in E by exact Hi.
  simpl in E, H. injection E as <-. injection H as H. exact H.
Qed.

(** Every row that survives [dropna] is free of missing values. *)
Lemma dropna_rows_notnull (df : DataFrame value) (i : nat) :
  row_notnull (dropna df) i = true.
Proof.
  unfold row_notnull. apply forallb_forall. intros c Hc.
  unfold dropna in Hc; simpl in Hc.
  apply in_map_iff in Hc. destruct Hc as [c0 [<- Hc0]]. simpl.
  destruct (nth_error (take_rows (dropna_mask df) (snd c0)) i) as [v|] eqn:E;
    [|reflexivity].
  apply nth_error_In in E. apply take_rows_In in E.
  destruct E as [k [Hm Hv]].
  apply dropna_mask_nth in Hm. unfold row_notnull in Hm.
  rewrite forallb_forall in Hm. specialize (Hm c0 Hc0).
  rewrite Hv in Hm. exact Hm.
Qed.

Lemma dropna_mask_dropna (df : DataFrame value) :
  Forall (fun b => b = true) (dropna_mask (dropna df)).
Proof.
  apply Forall_forall. intros b Hb. unfold dropna_mask in Hb.
  apply in_map_iff in Hb. destruct Hb as [i [<- _]].
  apply dropna_rows_notnull.
Qed.

(** C8: cleaning is idempotent; the missing-value row filter applied to an
    already cleaned table removes no further row, that is
    [dropna (dropna t) = dropna t]. *)
Theorem dropna_idempotent (t : DataFrame value) :
  dropna (dropna t) = dropna t.
Proof.
  pose proof (dropna_mask_dropna t) as Hall.
  pose proof (dropna_mask_length (dropna t)) as Hlen.
  unfold dropna at 1.
  set (m' := dropna_mask (dropna t)) in *.
  cbv zeta.
  assert (Hix : take_rows m' (index (dropna t)) = index (dropna t)).
  { apply take_rows_all_true; [exact Hall | rewrite Hlen; reflexivity]. }
  assert (Hcols : map (fun c => (fst c, take_rows m' (snd c))) (columns (dropna t))
                  = columns (dropna t)).
  { rewrite <- (map_id (columns (dropna t))) at 2.
    apply map_ext_in. intros c Hc.
    rewrite take_rows_all_true; [destruct c; reflexivity | exact Hall |].
    rewrite Hlen. unfold dropna in Hc |- *; simpl in Hc |- *.
    apply in_map_iff in Hc. destruct Hc as [c0 [<- _]]. simpl.
    apply take_rows_length_le. rewrite dropna_mask_length. reflexivity. }
  rewrite Hix, Hcols. destruct (dropna t); reflexivity.
Qed.

(** On the sample table the second row, which misses a nutrient, goes and
    the two others stay, with their cells. *)
Example dropna_sample_table :
  dropna_mask sample_table = [true; false; true] /\
  index (dropna sample_table) = [Num 0; Num 2] /\
  loc_col (dropna sample_table) NDB_No = Ok [Num 1001; Num 1003].
Proof. repeat split. Qed.

(** ** Labels and column selection *)

Lemma clabel_eqb_eq (a b : clabel) : clabel_eqb a b = true <-> a = b.
Proof.
  destruct a as [n|s], b as [m|t]; simpl; split; intros H;
    try discriminate; try congruence.
  - apply Nat.eqb_eq in H; congruence.
  - injection H as ->; apply Nat.eqb_refl.
  - apply String.eqb_eq in H; congruence.
  - injection H as ->; apply String.eqb_refl.
Qed.

Lemma clabel_eqb_refl (a : clabel) : clabel_eqb a a = true.
Proof. apply clabel_eqb_eq; reflexivity. Qed.

Lemma take_positions_spec {A} (l : list A) (ps : list nat) (cs : list A) :
  take_positions l ps = Ok cs ->
  Forall2 (fun p c => nth_error l p = Some c) ps cs.
Proof.
  revert cs; induction ps as [|p ps IH]; intros cs H; simpl in H.
  - injection H as <-. constructor.
  - destruct (nth_error l p) as [c|] eqn:E; [|discriminate].
    destruct (take_positions l ps) as [cs'|e]; simpl in H; [|discriminate].
    injection H as <-. constructor; [exact E | apply IH; reflexivity].
Qed.

Lemma take_positions_total {A} (l : list A) (ps : list nat) :
  Forall (fun p => p < length l) ps ->
  exists cs, take_positions l ps = Ok cs.
Proof.
  induction 1 as [|p ps Hp _ [cs IH]]; simpl.
  - eexists; reflexivity.
  - destruct (nth_error l p) as [c|] eqn:E.
    + rewrite IH. simpl. eexists; reflexivity.
    + apply nth_error_None in E. lia.
Qed.

(** The selection of the descriptive columns succeeds on every table that
    has 54 columns or more. *)
Lemma desc_cols_total (df : DataFrame value) :
  54 <= length (columns df) -> exists d, desc_cols df = Ok d.
Proof.
  intros H. unfold desc_cols, iloc_cols.
  destruct (@take_positions_total _ (columns df) desc_positions) as [cs Hcs].
  - unfold desc_positions. simpl. repeat constructor; lia.
  - rewrite Hcs. simpl. eexists; reflexivity.
Qed.

Lemma Forall2_In_r {A B} (P : A -> B -> Prop) (l : list A) (l' : list B) (b : B) :
  Forall2 P l l' -> In b l' -> exists a, In a l /\ P a b.
Proof.
  induction 1 as [|a0 b0 l l' H0 _ IH]; intros Hin; [contradiction|].
  destruct Hin as [<-|Hin].
  - exists a0; split; [left; reflexivity | exact H0].
  - destruct (IH Hin) as [a [Ha Hp]]. exists a; split; [right; exact Ha | exact Hp].
Qed.

Lemma firstn_In_nth {A} (k : nat) (l : list A) (a : A) :
  In a (firstn k l) -> exists i, i < k /\ nth_error l i = Some a.
Proof.
  revert l; induction k as [|k IH]; intros [|x l] H; simpl in H; try contradiction.
  destruct H as [<-|H].
  - exists 0; split; [lia | reflexivity].
  - destruct (IH _ H) as [i [Hi Hn]]. exists (S i); split; [lia | exact Hn].
Qed.

(** With distinct labels, a label names one position. *)
Lemma distinct_labels_position {A} (cols : list (clabel * list A)) i j a b :
  NoDup (map fst cols) ->
  nth_error cols i = Some a -> nth_error cols j = Some b -> fst a = fst b ->
  i = j.
Proof.
  intros Hnd Hi Hj Hab.
  rewrite NoDup_nth_error in Hnd. apply Hnd.
  - rewrite length_map. apply nth_error_Some. rewrite Hi. discriminate.
  - rewrite !nth_error_map, Hi, Hj. simpl. congruence.
Qed.

Lemma loc_col_In {A} (df : DataFrame A) (name : clabel) (x : list A) :
  loc_col df name = Ok x -> In (name, x) (columns df).
Proof.
  unfold loc_col. intros H.
  destruct (filter (has_label name) (columns df)) as [|c [|c' l]] eqn:E;
    try discriminate.
  injection H as <-.
  assert (Hc : In c (filter (has_label name) (columns df))) by (rewrite E; left; reflexivity).
  apply filter_In in Hc. destruct Hc as [Hc Hl].
  unfold has_label in Hl. apply clabel_eqb_eq in Hl.
  destruct c as [n x]; simpl in *. subst n. exact Hc.
Qed.

Lemma filter_unique {A} (f : A -> bool) (l : list A) (a : A) :
  In a l -> f a = true -> (forall b, In b l -> f b = true -> b = a) ->
  NoDup l -> filter f l = [a].
Proof.
  induction l as [|x l IH]; intros Hin Hfa Huniq Hnd; [contradiction|].
  inversion Hnd as [|? ? Hx Hnd']; subst.
  simpl. destruct Hin as [->|Hin].
  - rewrite Hfa. f_equal.
    destruct (filter f l) as [|y r] eqn:E; [reflexivity|].
    assert (Hy : In y (filter f l)) by (rewrite E; left; reflexivity).
    apply filter_In in Hy. destruct Hy as [Hy Hfy].
    assert (y = a) by (apply Huniq; [right; exact Hy | exact Hfy]).
    subst y. contradiction.
  - destruct (f x) eqn:Hfx.
    + assert (x = a) by (apply Huniq; [left; reflexivity | exact Hfx]).
      subst x. contradiction.
    + apply IH; auto. intros b Hb. apply Huniq. right; exact Hb.
Qed.

Lemma NoDup_map_fst {A B} (l : list (A * B)) : NoDup (map fst l) -> NoDup l.
Proof.
  induction l as [|[a b] l IH]; intros H; [constructor|].
  simpl in H. inversion H as [|? ? Ha Hl]; subst.
  constructor; [|apply IH; exact Hl].
  intros Hin. apply Ha. apply in_map_iff. exists (a, b); split; [reflexivity | exact Hin].
Qed.

Lemma NoDup_map_fst_inj {A B} (l : list (A * B)) (a : A) (b b' : B) :
  NoDup (map fst l) -> In (a, b) l -> In (a, b') l -> b = b'.
Proof.
  induction l as [|[x y] l IH]; intros Hnd H1 H2; [contradiction|].
  simpl in Hnd. inversion Hnd as [|? ? Hx Hl]; subst.
  destruct H1 as [E1|H1], H2 as [E2|H2].
  - congruence.
  - injection E1 as -> ->. exfalso. apply Hx.
    apply in_map_iff. exists (a, b'); split; [reflexivity | exact H2].
  - injection E2 as -> ->. exfalso. apply Hx.
    apply in_map_iff. exists (a, b); split; [reflexivity | exact H1].
  - apply IH; assumption.
Qed.

(** With distinct labels, [loc_col] returns the column that carries the label. *)
Lemma loc_col_distinct {A} (df : DataFrame A) (name : clabel) (x : list A) :
  NoDup (names df) -> In (name, x) (columns df) -> loc_col df name = Ok x.
Proof.
  intros Hnd Hin. unfold loc_col.
  rewrite (@filter_unique _ (has_label name) (columns df) (name, x)).
  - reflexivity.
  - exact Hin.
  - unfold has_label; simpl. apply clabel_eqb_refl.
  - intros [n y] Hb Hl. unfold has_label in Hl; simpl in Hl.
    apply clabel_eqb_eq in Hl. subst n. f_equal.
    eapply NoDup_map_fst_inj; eauto.
  - apply NoDup_map_fst. exact Hnd.
Qed.

Lemma set_index_spec (df df' : DataFrame value) (name : clabel) :
  set_index df name = Ok df' ->
  In (name, index df') (columns df) /\
  columns df' = filter (fun c => negb (has_label name c)) (columns df).
Proof.
  unfold set_index. intros H.
  destruct (loc_col df name) as [ix|e] eqn:E; simpl in H; [|discriminate].
  injection H as <-. simpl. split; [apply loc_col_In; exact E | reflexivity].
Qed.

Lemma drop_cols_spec {A} (df df' : DataFrame A) (labels : list clabel) :
  drop_cols df labels = Ok df' ->
  index df' = index df /\
  columns df' = filter (fun c => negb (existsb (clabel_eqb (fst c)) labels)) (columns df).
Proof.
  unfold drop_cols. intros H.
  destruct (forallb _ labels); [|discriminate].
  injection H as <-. split; reflexivity.
Qed.

Lemma iloc_cols_spec {A} (df df' : DataFrame A) (ps : list nat) :
  iloc_cols df ps = Ok df' ->
  index df' = index df /\
  Forall2 (fun p c => nth_error (columns df) p = Some c) ps (columns df').
Proof.
  unfold iloc_cols. intros H.
  destruct (take_positions (columns df) ps) as [cs|e] eqn:E; simpl in H; [|discriminate].
  injection H as <-. split; [reflexivity | apply take_positions_spec; exact E].
Qed.

(** ** Column split *)

(** C10: on a table with 54 columns the split is not a partition: the
    descriptive columns are those at the positions 0-2 and 50-53, the
    numeric ones are the columns 0-48 without the two named text columns,
    and the column at position 49 is in neither subset (nor is it the
    index). *)
Theorem column_49_in_neither_subset (df desc_df nutr_df : DataFrame value) :
  length (columns df) = 54 ->
  NoDup (names df) ->
  split_desc df = Ok desc_df ->
  split_nutr df = Ok nutr_df ->
  (exists d, desc_cols df = Ok d /\
     Forall2 (fun p c => nth_error (columns df) p = Some c)
             [0; 1; 2; 50; 51; 52; 53] (columns d)) /\
  (exists n, nutr_cols df = Ok n /\
     columns n = filter (fun c => negb (existsb (clabel_eqb (fst c)) [FoodGroup; Shrt_Desc]))
                        (firstn 49 (columns df))) /\
  (exists c49, nth_error (columns df) 49 = Some c49 /\
     fst c49 <> NDB_No /\
     ~ In (fst c49) (names desc_df) /\
     ~ In (fst c49) (names nutr_df)).
Proof.
  intros Hlen Hnd Hdesc Hnutr.
  unfold split_desc in Hdesc.
  destruct (desc_cols df) as [d|e] eqn:Ed; simpl in Hdesc; [|discriminate].
  unfold split_nutr in Hnutr.
  destruct (nutr_cols df) as [n|e] eqn:En; simpl in Hnutr; [|discriminate].
  pose proof (iloc_cols_spec _ _ Ed) as [_ Hd].
  pose proof (drop_cols_spec _ _ En) as [_ Hn].
  unfold iloc_drop_last in Hn. cbn [columns] in Hn.
  rewrite Hlen in Hn. change (54 - 5) with 49 in Hn.
  pose proof (set_index_spec _ _ Hdesc) as [Hdi Hdc].
  pose proof (set_index_spec _ _ Hnutr) as [Hni Hnc].
  destruct (nth_error (columns df) 49) as [c49|] eqn:E49;
    [|apply nth_error_None in E49; lia].
  (* a column of [d] sits at one of the seven positions *)
  assert (Hpos : forall c, In c (columns d) ->
            exists p, In p desc_positions /\ nth_error (columns df) p = Some c).
  { intros c Hc. destruct (Forall2_In_r _ Hd Hc) as [p [Hp Hnth]].
    exists p; split; assumption. }
  assert (Hne : forall c, In c (columns d) -> fst c <> fst c49).
  { intros c Hc Heq. destruct (Hpos c Hc) as [p [Hp Hnth]].
    assert (p = 49) by (eapply distinct_labels_position; eauto).
    subst p. simpl in Hp. intuition discriminate. }
  split; [exists d; split; [reflexivity | exact Hd]|].
  split; [exists n; split; [reflexivity | exact Hn]|].
  exists c49. split; [reflexivity|]. split; [|split].
  - intros Heq. apply (Hne _ Hdi). simpl. congruence.
  - unfold names. rewrite Hdc. intros Hin.
    apply in_map_iff in Hin. destruct Hin as [c [Hfc Hc]].
    apply filter_In in Hc. destruct Hc as [Hc _].
    exact (Hne c Hc Hfc).
  - unfold names. rewrite Hnc, Hn. intros Hin.
    apply in_map_iff in Hin. destruct Hin as [c [Hfc Hc]].
    apply filter_In in Hc. destruct Hc as [Hc _].
    apply filter_In in Hc. destruct Hc as [Hc _].
    apply firstn_In_nth in Hc. destruct Hc as [i [Hi Hnth]].
    assert (i = 49) by (eapply distinct_labels_position; eauto).
    lia.
Qed.

Lemma distinctb_NoDup (l : list clabel) : distinctb l = true -> NoDup l.
Proof.
  induction l as [|a l IH]; intros H; [constructor|].
  simpl in H. apply andb_true_iff in H. destruct H as [Ha Hl].
  constructor; [|apply IH; exact Hl].
  intros Hin. apply negb_true_iff in Ha.
  assert (existsb (clabel_eqb a) l = true); [|congruence].
  apply existsb_exists. exists a; split; [exact Hin | apply clabel_eqb_refl].
Qed.

Lemma sample_table_distinct : NoDup (names sample_table).
Proof. apply distinctb_NoDup. vm_compute. reflexivity. Qed.

Lemma sample_table_dropna_distinct : NoDup (names (dropna sample_table)).
Proof. apply distinctb_NoDup. vm_compute. reflexivity. Qed.

Lemma column_49_in_neither_subset_witness :
  exists desc_df nutr_df,
    split_desc (dropna sample_table) = Ok desc_df /\
    split_nutr (dropna sample_table) = Ok nutr_df /\
    exists c49, nth_error (columns (dropna sample_table)) 49 = Some c49 /\
      fst c49 <> NDB_No /\
      ~ In (fst c49) (names desc_df) /\
      ~ In (fst c49) (names nutr_df).
Proof.
  destruct (split_desc (dropna sample_table)) as [d|e] eqn:Ed;
    [|vm_compute in Ed; discriminate].
  destruct (split_nutr (dropna sample_table)) as [n|e] eqn:En;
    [|vm_compute in En; discriminate].
  exists d, n. split; [reflexivity|]. split; [reflexivity|].
  apply (@column_49_in_neither_subset (dropna sample_table) d n).
  - vm_compute. reflexivity.
  - exact sample_table_dropna_distinct.
  - exact Ed.
  - exact En.
Defined.

(** ** Row identifiers *)

Lemma dropna_names (t : DataFrame value) : names (dropna t) = names t.
Proof. unfold names, dropna. simpl. rewrite map_map. reflexivity. Qed.

Lemma dropna_columns_In (t : DataFrame value) (name : clabel) (x : list value) :
  In (name, x) (columns (dropna t)) ->
  exists x0, In (name, x0) (columns t) /\ x = take_rows (dropna_mask t) x0.
Proof.
  unfold dropna; simpl. intros H.
  apply in_map_iff in H. destruct H as [[n x0] [E H]].
  simpl in E. injection E as -> <-. exists x0; split; [exact H | reflexivity].
Qed.

Lemma Forall2_nth_In {A} (l : list A) (ps : list nat) (cs : list A) (c : A) :
  Forall2 (fun p c => nth_error l p = Some c) ps cs -> In c cs -> In c l.
Proof.
  intros H Hc. destruct (Forall2_In_r _ H Hc) as [p [_ Hp]].
  eapply nth_error_In; exact Hp.
Qed.

(** The index [split_desc] sets is the column [NDB_No] of the table. *)
Lemma split_desc_index (df desc_df : DataFrame value) :
  split_desc df = Ok desc_df -> In (NDB_No, index desc_df) (columns df).
Proof.
  unfold split_desc. intros H.
  destruct (desc_cols df) as [d|e] eqn:Ed; simpl in H; [|discriminate].
  apply iloc_cols_spec in Ed. destruct Ed as [_ Hd].
  apply set_index_spec in H. destruct H as [H _].
  eapply Forall2_nth_In; eauto.
Qed.

(** ... and so is the index [split_nutr] sets. *)
Lemma split_nutr_index (df nutr_df : DataFrame value) :
  split_nutr df = Ok nutr_df -> In (NDB_No, index nutr_df) (columns df).
Proof.
  unfold split_nutr. intros H.
  destruct (nutr_cols df) as [n|e] eqn:En; simpl in H; [|discriminate].
  apply drop_cols_spec in En. destruct En as [_ Hn].
  apply set_index_spec in H. destruct H as [H _].
  rewrite Hn in H. apply filter_In in H. destruct H as [H _].
  unfold iloc_drop_last in H; cbn [columns] in H.
  apply firstn_In_nth in H. destruct H as [i [_ H]].
  eapply nth_error_In; exact H.
Qed.

Lemma DataFrame_of_array_index {A} (X : list (list A)) (ix : list value) (df : DataFrame A) :
  DataFrame_of_array X ix = Ok df -> index df = ix.
Proof.
  unfold DataFrame_of_array. destruct (forallb _ X); intros H; [|discriminate].
  injection H as <-. reflexivity.
Qed.

Lemma setitem_index {A} (df df' : DataFrame A) (name : clabel) (v : list A) :
  setitem df name v = Ok df' -> index df' = index df.
Proof.
  unfold setitem. destruct (Nat.eqb _ _); intros H; [|discriminate].
  injection H as <-. reflexivity.
Qed.

(** A left join keeps the labels of the left frame, and only those. *)
Lemma join_rows_labels (l r : list value) (lab : value) :
  In lab (map (fun p => nth (fst p) l NaN) (join_rows l r)) <-> In lab l.
Proof.
  unfold join_rows. split; intros H.
  - apply in_map_iff in H. destruct H as [[i j] [<- H]]. simpl.
    apply in_flat_map in H. destruct H as [i0 [Hi0 H]].
    apply in_seq in Hi0.
    assert (i = i0).
    { destruct (locate r (nth i0 l NaN)) as [|j0 js].
      - destruct H as [H|[]]. congruence.
      - apply in_map_iff in H. destruct H as [j' [H _]]. congruence. }
    subst i0. apply nth_In. lia.
  - apply In_nth with (d := NaN) in H. destruct H as [i [Hi <-]].
    destruct (locate r (nth i l NaN)) as [|j0 js] eqn:E.
    + apply in_map_iff. exists (i, None). split; [reflexivity|].
      apply in_flat_map. exists i. split; [apply in_seq; lia|].
      rewrite E. left; reflexivity.
    + apply in_map_iff. exists (i, Some j0). split; [reflexivity|].
      apply in_flat_map. exists i. split; [apply in_seq; lia|].
      rewrite E. left; reflexivity.
Qed.

Lemma join_index {A} (na : A) (left right out : DataFrame A) (lab : value) :
  join na left right = Ok out -> (In lab (index out) <-> In lab (index left)).
Proof.
  unfold join. destruct (existsb _ (columns left)); intros H; [discriminate|].
  injection H as <-. cbn [index]. apply join_rows_labels.
Qed.

(** C4: the descriptive frame, the numeric frame and the frame of the
    projected coordinates built from a cleaned table carry the same row
    identifiers, the [NDB_No] of the rows without a missing value, and the
    final clustered frame has a row for these identifiers only. *)
Theorem row_identifiers_agree (t : DataFrame value) (pca : matrix) (labels : list nat)
    (desc_df nutr_df : DataFrame value) (pca_df : DataFrame R) (out : DataFrame cell) :
  NoDup (names t) ->
  split_desc (dropna t) = Ok desc_df ->
  split_nutr (dropna t) = Ok nutr_df ->
  projected desc_df pca = Ok pca_df ->
  clustered desc_df pca labels = Ok out ->
  exists ndb, loc_col t NDB_No = Ok ndb /\
    index desc_df = take_rows (dropna_mask t) ndb /\
    index nutr_df = take_rows (dropna_mask t) ndb /\
    index pca_df = take_rows (dropna_mask t) ndb /\
    forall lab, In lab (index out) <-> In lab (take_rows (dropna_mask t) ndb).
Proof.
  intros Hnd Hdesc Hnutr Hproj Hout.
  apply split_desc_index in Hdesc.
  apply split_nutr_index in Hnutr.
  assert (Hnd' : NoDup (map fst (columns (dropna t)))).
  { change (NoDup (names (dropna t))). rewrite dropna_names. exact Hnd. }
  pose proof (NoDup_map_fst_inj _ _ _ _ Hnd' Hnutr Hdesc) as Hsame.
  apply dropna_columns_In in Hdesc. destruct Hdesc as [ndb [Hin Hix]].
  exists ndb. split; [apply loc_col_distinct; assumption|].
  split; [exact Hix|]. split; [congruence|].
  pose proof (DataFrame_of_array_index _ _ Hproj) as Hp.
  split; [congruence|].
  intros lab. unfold clustered in Hout. rewrite Hproj in Hout. simpl in Hout.
  destruct (setitem (map_cells Coord pca_df) Cluster_col (map Cluster labels))
    as [p1|e] eqn:E1; simpl in Hout; [|discriminate].
  rewrite (join_index _ _ _ lab Hout).
  apply setitem_index in E1. rewrite E1. cbn [map_cells index].
  rewrite Hp, Hix. reflexivity.
Qed.

Lemma row_identifiers_agree_witness :
  exists (desc_df nutr_df : DataFrame value) (pca_df : DataFrame R)
         (out : DataFrame cell),
    split_desc (dropna sample_table) = Ok desc_df /\
    split_nutr (dropna sample_table) = Ok nutr_df /\
    projected desc_df sample_pca = Ok pca_df /\
    clustered desc_df sample_pca (grouper sample_library sample_pca) = Ok out /\
    index desc_df = [Num 1001; Num 1003] /\
    index nutr_df = [Num 1001; Num 1003] /\
    index pca_df = [Num 1001; Num 1003] /\
    forall lab, In lab (index out) <-> In lab [Num 1001; Num 1003].
Proof.
  destruct (split_desc (dropna sample_table)) as [d|e] eqn:Ed;
    [|vm_compute in Ed; discriminate].
  destruct (split_nutr (dropna sample_table)) as [n|e] eqn:En;
    [|vm_compute in En; discriminate].
  destruct (projected d sample_pca) as [p|e] eqn:Ep;
    [|vm_compute in Ed; injection Ed as <-; vm_compute in Ep; discriminate].
  destruct (clustered d sample_pca (grouper sample_library sample_pca)) as [o|e] eqn:Eo;
    [|vm_compute in Ed; injection Ed as <-; vm_compute in Eo; discriminate].
  exists d, n, p, o.
  split; [reflexivity|]. split; [reflexivity|].
  split; [exact Ep|]. split; [exact Eo|].
  destruct (@row_identifiers_agree sample_table sample_pca
              (grouper sample_library sample_pca) d n p o
              sample_table_distinct Ed En Ep Eo) as [ndb [Hloc H]].
  remember (take_rows (dropna_mask sample_table) ndb) as ids eqn:Eids.
  vm_compute in Hloc. injection Hloc as <-.
  vm_compute in Eids. subst ids. exact H.
Defined.

(** ** The power transform *)

Lemma string_length_append (s t : string) :
  String.length (s ++ t) = String.length s + String.length t.
Proof. induction s as [|a s IH]; simpl; [reflexivity | rewrite IH; reflexivity]. Qed.

Lemma string_append_inj (s1 s2 t : string) :
  (s1 ++ t = s2 ++ t)%string -> s1 = s2.
Proof.
  revert s2; induction s1 as [|a s1 IH]; intros [|b s2] H; simpl in H.
  - reflexivity.
  - apply (f_equal String.length) in H. simpl in H.
    rewrite string_length_append in H. lia.
  - apply (f_equal String.length) in H. simpl in H.
    rewrite string_length_append in H. lia.
  - injection H as -> H. f_equal. apply IH; exact H.
Qed.

Lemma TF_header_inj (a b : clabel) :
  is_header a -> is_header b -> TF a = TF b -> a = b.
Proof.
  destruct a as [n|s], b as [m|t]; simpl; try contradiction.
  intros _ _ H. unfold TF in H; simpl in H. injection H as H.
  apply string_append_inj in H. congruence.
Qed.

Lemma TF_headers_distinct (l : list clabel) :
  Forall is_header l -> NoDup l -> NoDup (map TF l).
Proof.
  induction 1 as [|a l Ha Hl IH]; intros Hnd; [constructor|].
  inversion Hnd as [|? ? Hnotin Hnd']; subst. simpl. constructor; [|apply IH; exact Hnd'].
  intros Hin. apply in_map_iff in Hin. destruct Hin as [b [Hb Hin]].
  apply TF_header_inj in Hb; [subst b; contradiction| |exact Ha].
  rewrite Forall_forall in Hl. apply Hl; exact Hin.
Qed.

Lemma boxcox_nonempty (lib : NumericLibrary) (x : list Q) :
  x <> [] ->
  boxcox lib x =
  if is_constant x || existsb (fun v => Qle_bool v 0) x then Error NumericError
  else Ok (Fitted (transformed lib x) (boxcox_normmax lib x)).
Proof.
  destruct x as [|x0 x]; [contradiction|]. intros _. unfold boxcox.
  destruct (is_constant (x0 :: x)); [reflexivity|]. cbn [orb]. reflexivity.
Qed.

Lemma setitem_fresh {A} (df : DataFrame A) (name : clabel) (v : list A) :
  length v = length (index df) -> ~ In name (names df) ->
  setitem df name v = Ok (mkDF (index df) (columns df ++ [(name, v)])).
Proof.
  intros Hlen Hfresh. unfold setitem.
  rewrite Hlen, Nat.eqb_refl.
  destruct (existsb (has_label name) (columns df)) eqn:E; [|reflexivity].
  exfalso. apply Hfresh. apply existsb_exists in E. destruct E as [c [Hc Hl]].
  unfold has_label in Hl. apply clabel_eqb_eq in Hl. subst name.
  unfold names. apply in_map. exact Hc.
Qed.

(** What the loop computes, on a frame that has rows, on columns it can
    read, whose new names are fresh: it stops with [NumericError] at the
    first column that is constant or holds a non-positive value, and
    otherwise appends the transformed columns in the order it visits
    them. *)
Lemma boxcox_loop_run (lib : NumericLibrary) (df : DataFrame Q)
    (cs : list (clabel * list Q)) (acc : DataFrame R) :
  index acc <> [] ->
  (forall c, In c cs -> loc_col df (fst c) = Ok (snd c)) ->
  (forall c, In c cs -> length (snd c) = length (index acc)) ->
  NoDup (map TF (map fst cs)) ->
  (forall c, In c cs -> ~ In (TF (fst c)) (names acc)) ->
  boxcox_loop lib df (map fst cs) acc =
  if existsb (fun c => is_constant (snd c) || existsb (fun v => Qle_bool v 0) (snd c)) cs
  then Error NumericError
  else Ok (mkDF (index acc)
             (columns acc ++ map (fun c => (TF (fst c), transformed lib (snd c))) cs)).
Proof.
  intros Hrows. revert acc Hrows.
  induction cs as [|c cs IH]; intros acc Hrows Hloc Hlen Hnd Hfresh.
  - simpl. rewrite app_nil_r. destruct acc; reflexivity.
  - cbn [map boxcox_loop existsb]. rewrite (Hloc c (or_introl eq_refl)). cbn [bind].
    assert (Hx : snd c <> []).
    { intros E. specialize (Hlen c (or_introl eq_refl)). rewrite E in Hlen.
      destruct (index acc); [contradiction | discriminate]. }
    rewrite (boxcox_nonempty lib Hx).
    destruct (is_constant (snd c) || existsb (fun v => Qle_bool v 0) (snd c));
      cbn [bind orb getitem0]; [reflexivity|].
    rewrite setitem_fresh.
    + cbn [bind]. cbn [map] in Hnd. inversion Hnd as [|? ? Hc Hnd']; subst.
      rewrite IH.
      * cbn [index columns map]. rewrite <- app_assoc. reflexivity.
      * exact Hrows.
      * intros c' Hc'. apply Hloc. right; exact Hc'.
      * intros c' Hc'. cbn [index]. apply Hlen. right; exact Hc'.
      * exact Hnd'.
      * intros c' Hc' Hin. unfold names in Hin; cbn [columns] in Hin.
        rewrite map_app in Hin. apply in_app_or in Hin.
        destruct Hin as [Hin|[Hin|[]]].
        -- apply (Hfresh c' (or_intror Hc')). exact Hin.
        -- cbn [fst] in Hin. apply Hc. rewrite Hin.
           apply in_map. apply in_map. exact Hc'.
    + unfold transformed. rewrite length_map. apply Hlen. left; reflexivity.
    + apply Hfresh. left; reflexivity.
Qed.

(** On a well-formed frame that has rows, the power transform fails, with
    [NumericError], exactly when some column is constant or holds a
    non-positive value; otherwise column [j] of the result is the
    transform of column [j]. *)
Lemma power_transform_run (lib : NumericLibrary) (df : DataFrame Q) :
  well_formed df -> index df <> [] ->
  power_transform lib df =
  if existsb (fun c => is_constant (snd c) || existsb (fun v => Qle_bool v 0) (snd c))
             (columns df)
  then Error NumericError
  else Ok (mkDF (index df)
             (map (fun c => (TF (fst c), transformed lib (snd c))) (columns df))).
Proof.
  intros [Hnd [Hhd Hlen]] Hrows. unfold power_transform, names.
  rewrite boxcox_loop_run; [reflexivity| | | | |].
  - exact Hrows.
  - intros [n x] Hc. simpl. apply loc_col_distinct; assumption.
  - intros c Hc. simpl. rewrite Forall_forall in Hlen. apply Hlen; exact Hc.
  - apply TF_headers_distinct; assumption.
  - intros c _ [].
Qed.

(** On a well-formed frame that has columns and no row, the loop stops at
    the first column: [boxcox] returns the empty array, which has no
    item 0. *)
Lemma power_transform_no_rows (lib : NumericLibrary) (df : DataFrame Q) :
  well_formed df -> index df = [] -> columns df <> [] ->
  power_transform lib df = Error IndexError.
Proof.
  intros [Hnd [Hhd Hlen]] Hrows Hcols. unfold power_transform, names.
  destruct (columns df) as [|[n x] cs] eqn:E; [contradiction|].
  cbn [map fst boxcox_loop].
  assert (Hx : x = []).
  { rewrite Forall_forall in Hlen. specialize (Hlen (n, x) (or_introl eq_refl)).
    cbn [snd] in Hlen. rewrite Hrows in Hlen. destruct x; [reflexivity | discriminate]. }
  rewrite (@loc_col_distinct _ df n x).
  - subst x. reflexivity.
  - exact Hnd.
  - rewrite E. left; reflexivity.
Qed.

(** Whenever the power transform succeeds on a well-formed frame, column
    [j] of its result is the transform of column [j]. *)
Lemma power_transform_success (lib : NumericLibrary) (df : DataFrame Q)
    (tf : DataFrame R) :
  well_formed df ->
  power_transform lib df = Ok tf ->
  tf = mkDF (index df)
         (map (fun c => (TF (fst c), transformed lib (snd c))) (columns df)).
Proof.
  intros Hwf H. destruct (index df) as [|l ix] eqn:Eix.
  - destruct (columns df) as [|c cs] eqn:Ec.
    + unfold power_transform, names in H. rewrite Ec in H. cbn [map boxcox_loop] in H.
      injection H as <-. rewrite Eix. reflexivity.
    + rewrite power_transform_no_rows in H; [discriminate | exact Hwf | exact Eix |].
      rewrite Ec. discriminate.
  - rewrite power_transform_run in H; [|exact Hwf | rewrite Eix; discriminate].
    destruct (existsb _ (columns df)); [discriminate|].
    injection H as <-. rewrite Eix. reflexivity.
Qed.

Lemma has_nonpositive_existsb (df : DataFrame Q) :
  existsb (fun c => existsb (fun v => Qle_bool v 0) (snd c)) (columns df) = true
  <-> has_nonpositive df.
Proof.
  unfold has_nonpositive. rewrite existsb_exists. split.
  - intros [c [Hc H]]. apply existsb_exists in H. destruct H as [v [Hv H]].
    apply Qle_bool_iff in H. exists c, v. auto.
  - intros [c [v [Hc [Hv H]]]]. exists c. split; [exact Hc|].
    apply existsb_exists. exists v. split; [exact Hv | apply Qle_bool_iff; exact H].
Qed.

Lemma rejected_existsb (df : DataFrame Q) :
  existsb (fun c => is_constant (snd c) || existsb (fun v => Qle_bool v 0) (snd c))
          (columns df) = true
  <-> has_nonpositive df \/ has_constant df.
Proof.
  rewrite existsb_exists. split.
  - intros [c [Hc H]]. apply orb_true_iff in H. destruct H as [H|H].
    + right. exists c. auto.
    + left. apply has_nonpositive_existsb. apply existsb_exists. exists c. auto.
  - intros [H|[c [Hc H]]].
    + apply has_nonpositive_existsb in H. apply existsb_exists in H.
      destruct H as [c [Hc H]]. exists c. split; [exact Hc|].
      rewrite H. apply orb_true_r.
    + exists c. split; [exact Hc|]. rewrite H. reflexivity.
Qed.

Lemma loc_col_not_numeric {A} (df : DataFrame A) (name : clabel) :
  loc_col df name <> Error NumericError.
Proof.
  unfold loc_col. destruct (filter (has_label name) (columns df)) as [|c [|c' l]];
    discriminate.
Qed.

(** Whatever the frame, the loop raises [NumericError] only from
    [boxcox], on a column that is constant or holds a non-positive
    value. *)
Lemma boxcox_loop_NumericError (lib : NumericLibrary) (df : DataFrame Q)
    (cols : list clabel) (acc : DataFrame R) :
  boxcox_loop lib df cols acc = Error NumericError ->
  has_nonpositive df \/ has_constant df.
Proof.
  revert acc; induction cols as [|col rest IH]; intros acc H; cbn [boxcox_loop] in H;
    [discriminate|].
  destruct (loc_col df col) as [x|e] eqn:El; cbn [bind] in H.
  - apply loc_col_In in El. destruct x as [|x0 x]; [discriminate|].
    unfold boxcox in H.
    destruct (is_constant (x0 :: x)) eqn:Ec.
    + right. exists (col, x0 :: x). auto.
    + destruct (existsb (fun v => Qle_bool v 0) (x0 :: x)) eqn:Eg; cbn [bind getitem0] in H.
      * left. apply existsb_exists in Eg. destruct Eg as [v [Hv Hle]].
        apply Qle_bool_iff in Hle. exists (col, x0 :: x), v. auto.
      * destruct (setitem acc (TF col) (transformed lib (x0 :: x))) as [acc'|e] eqn:Es;
          cbn [bind] in H.
        -- eapply IH; exact H.
        -- unfold setitem in Es. destruct (Nat.eqb _ _); [discriminate|].
           congruence.
  - exfalso. apply (@loc_col_not_numeric _ df col). congruence.
Qed.

Lemma normalize_reduce_error (lib : NumericLibrary) (nutr_df : DataFrame number)
    (e : error) :
  normalize_reduce lib nutr_df = Error e <->
  power_transform lib (float_values (add_scalar nutr_df 1)) = Error e.
Proof.
  unfold normalize_reduce.
  destruct (power_transform lib (float_values (add_scalar nutr_df 1))); simpl; split;
    intros H; congruence.
Qed.

(** C5, amended: on the frame it is given, the power transform works
    column by column.  On a frame that has rows it fails exactly when some
    value is not positive or some column is constant, and then with
    [NumericError]; otherwise every column is mapped, under its name
    suffixed with [_TF], by the transform whose exponent is computed from
    that column alone ([(v^lambda - 1)/lambda], or [ln v] when
    [lambda = 0]).  On a frame that has columns and no row it fails with
    [IndexError].  A failure is not caught: the cells that follow fail
    with it. *)
Theorem power_transform_failures (lib : NumericLibrary) (x : DataFrame Q) :
  well_formed x ->
  (index x = [] -> columns x <> [] -> power_transform lib x = Error IndexError) /\
  (index x <> [] ->
   (forall e, power_transform lib x = Error e <->
              e = NumericError /\ (has_nonpositive x \/ has_constant x)) /\
   (~ has_nonpositive x -> ~ has_constant x ->
    power_transform lib x =
    Ok (mkDF (index x)
          (map (fun c => (TF (fst c),
                          map (fun v => special_boxcox (Q2R v) (boxcox_normmax lib (snd c)))
                              (snd c)))
               (columns x))))) /\
  (forall nutr_df e, x = float_values (add_scalar nutr_df 1) ->
   power_transform lib x = Error e -> normalize_reduce lib nutr_df = Error e).
Proof.
  intros Hwf. split; [|split].
  - intros Hix Hc. apply power_transform_no_rows; assumption.
  - intros Hix. pose proof (power_transform_run lib Hwf Hix) as Hrun.
    pose proof (rejected_existsb x) as Hrej.
    destruct (existsb (fun c => is_constant (snd c)
                                || existsb (fun v => Qle_bool v 0) (snd c)) (columns x)).
    + assert (Hx : has_nonpositive x \/ has_constant x) by (apply Hrej; reflexivity).
      split.
      * intros e. rewrite Hrun. split.
        -- intros H. injection H as <-. split; [reflexivity | exact Hx].
        -- intros [-> _]. reflexivity.
      * intros H1 H2. tauto.
    + assert (Hx : ~ (has_nonpositive x \/ has_constant x)).
      { intros Hx. apply Hrej in Hx. discriminate. }
      split.
      * intros e. rewrite Hrun. split; [discriminate|]. intros [_ H]. contradiction.
      * intros _ _. exact Hrun.
  - intros nutr_df e -> H. apply normalize_reduce_error. exact H.
Qed.

Lemma shifted_nutr_well_formed : well_formed shifted_nutr.
Proof.
  split; [|split].
  - apply distinctb_NoDup. reflexivity.
  - repeat constructor.
  - repeat constructor.
Qed.

Lemma power_transform_failures_witness :
  well_formed shifted_nutr /\
  index shifted_nutr <> [] /\
  ~ has_nonpositive shifted_nutr /\ ~ has_constant shifted_nutr /\
  power_transform sample_library shifted_nutr =
  Ok (mkDF [Num 1001; Num 1003]
        [(CStr "Water_(g)_TF", [ln (Q2R (135 # 8)); ln (Q2R 1)]);
         (CStr "Energ_Kcal_TF", [ln (Q2R 718); ln (Q2R 877)]);
         (CStr "Protein_(g)_TF", [ln (Q2R (7 # 4)); ln (Q2R (5 # 4))])]).
Proof.
  assert (Hrej : ~ (has_nonpositive shifted_nutr \/ has_constant shifted_nutr)).
  { intros H. apply rejected_existsb in H. vm_compute in H. discriminate. }
  assert (Hix : index shifted_nutr <> []) by discriminate.
  split; [exact shifted_nutr_well_formed|]. split; [exact Hix|].
  split; [tauto|]. split; [tauto|].
  destruct (@power_transform_failures sample_library shifted_nutr
              shifted_nutr_well_formed) as [_ [H _]].
  destruct (H Hix) as [_ Hok].
  rewrite Hok by tauto. cbn [sample_library boxcox_normmax]. unfold special_boxcox.
  destruct (Req_dec_T 0 0) as [_|Hne]; [reflexivity | contradiction].
Defined.

(** A frame of positive values with a constant column: no value is
    non-positive, and the power transform fails all the same, with the
    exception it has for non-positive values.  A frame with columns and no
    row fails too, with [IndexError]. *)
Lemma positive_constant_column_counterexample :
  well_formed constant_nutr /\ index constant_nutr <> [] /\
  ~ has_nonpositive constant_nutr /\
  (forall lib, power_transform lib constant_nutr = Error NumericError) /\
  well_formed no_rows_nutr /\ ~ has_nonpositive no_rows_nutr /\
  (forall lib, power_transform lib no_rows_nutr = Error IndexError).
Proof.
  repeat split.
  - apply distinctb_NoDup. reflexivity.
  - repeat constructor.
  - repeat constructor.
  - discriminate.
  - intros H. apply has_nonpositive_existsb in H. vm_compute in H. discriminate.
  - apply distinctb_NoDup. reflexivity.
  - repeat constructor.
  - repeat constructor.
  - intros H. apply has_nonpositive_existsb in H. vm_compute in H. discriminate.
Qed.

(** ** The shift by one *)

Lemma add_scalar_In (df : DataFrame number) (k : Z) c v :
  In c (columns (float_values (add_scalar df k))) -> In v (snd c) ->
  exists c0 v0, In c0 (columns df) /\ In v0 (snd c0) /\
                v = number_value (add_number v0 k).
Proof.
  unfold float_values, add_scalar. cbn [columns]. rewrite map_map. cbn [fst snd].
  intros Hc Hv.
  apply in_map_iff in Hc. destruct Hc as [c0 [<- Hc0]]. cbn [snd] in Hv.
  rewrite map_map in Hv.
  apply in_map_iff in Hv. destruct Hv as [v0 [<- Hv0]].
  exists c0, v0. auto.
Qed.

Lemma wrap64_small (z : Z) :
  (- 2 ^ 63 <= z < 2 ^ 63)%Z -> wrap64 z = z.
Proof.
  intros H. unfold wrap64. rewrite Z.mod_small; lia.
Qed.

Lemma pow2_mono (a b : Z) : (a <= b)%Z -> (2 ^ a <= 2 ^ b)%Q.
Proof.
  intros H. apply Qpower_le_compat_l; [exact H | unfold Qle; simpl; lia].
Qed.

Lemma pow2_pos (a : Z) : (0 < 2 ^ a)%Q.
Proof. apply Qpower_0_lt. reflexivity. Qed.

(** A positive rational is at least half the quotient of the leading
    powers of two of its numerator and denominator. *)
Lemma log2_lower (q : Q) :
  (0 < q)%Q ->
  (2 ^ (Z.log2 (Z.abs (Qnum q)) - Z.log2 (Zpos (Qden q)) - 1) <= q)%Q.
Proof.
  destruct q as [n d]. unfold Qlt. cbn [Qnum Qden]. intros Hn.
  assert (Hn' : (0 < n)%Z) by lia.
  rewrite Z.abs_eq by lia.
  destruct (Z.log2_spec n Hn') as [Hln _].
  destruct (Z.log2_spec (Zpos d) (Pos2Z.is_pos d)) as [_ Hld].
  pose proof (Z.log2_nonneg n) as H0n. pose proof (Z.log2_nonneg (Zpos d)) as H0d.
  replace (Z.log2 n - Z.log2 (Z.pos d) - 1)%Z
    with (Z.log2 n - Z.succ (Z.log2 (Z.pos d)))%Z by lia.
  rewrite Qpower_minus by discriminate.
  change 2%Q with (inject_Z 2).
  rewrite <- !Zpower_Qpower by lia.
  set (A := (2 ^ Z.log2 n)%Z) in *. set (B := (2 ^ Z.succ (Z.log2 (Z.pos d)))%Z) in *.
  assert (HA : (0 < A)%Z) by (apply Z.pow_pos_nonneg; lia).
  apply Qle_shift_div_r; [unfold Qlt; simpl; lia|].
  unfold Qle. cbn [Qmult inject_Z Qnum Qden]. nia.
Qed.

Lemma Qlog2_lower (q : Q) : (0 < q)%Q -> (2 ^ (Qlog2 q - 52) <= q)%Q.
Proof.
  intros Hq. eapply Qle_trans; [|apply log2_lower; exact Hq].
  apply pow2_mono. unfold Qlog2. cbv zeta.
  destruct (Qle_bool _ _); lia.
Qed.

Lemma round_half_even_floor (q : Q) : (Qfloor q <= round_half_even q)%Z.
Proof.
  unfold round_half_even. cbv zeta.
  destruct (q - inject_Z (Qfloor q) ?= 1 # 2)%Q; [destruct (Z.even _)| |]; lia.
Qed.

(** Rounding to the nearest double keeps a positive number positive. *)
Lemma round_double_pos (q : Q) : (0 < q)%Q -> (0 < round_double q)%Q.
Proof.
  intros Hq. unfold round_double.
  destruct (Qeq_bool q 0) eqn:E.
  - apply Qeq_bool_iff in E. rewrite E in Hq. discriminate.
  - cbv zeta. rewrite Qred_correct.
    set (ulp := (2 ^ (Qlog2 q - 52))%Q).
    assert (Hu : (0 < ulp)%Q) by apply pow2_pos.
    assert (H1 : (1 <= q / ulp)%Q).
    { apply Qle_shift_div_l; [exact Hu|]. rewrite Qmult_1_l. apply Qlog2_lower. exact Hq. }
    assert (Hm : (1 <= round_half_even (q / ulp))%Z).
    { apply Qfloor_resp_le in H1. change (Qfloor 1) with 1%Z in H1.
      pose proof (round_half_even_floor (q / ulp)). lia. }
    apply Qmult_lt_0_compat; [|exact Hu].
    unfold Qlt. cbn [inject_Z Qnum Qden]. lia.
Qed.

Lemma shiftable_positive (v : number) :
  shiftable v -> (0 < number_value (add_number v 1))%Q.
Proof.
  destruct v as [z|q]; cbn [shiftable add_number number_value]; intros H.
  - rewrite wrap64_small by lia. unfold Qlt. cbn [inject_Z Qnum Qden]. lia.
  - apply round_double_pos. change (inject_Z 1) with 1%Q. lra.
Qed.

(** C6, amended: when every value of the numeric frame is greater than -1
    and, in an [int64] column, smaller than the largest [int64] (in
    particular for the nutrient measurements, which are not negative),
    every value is strictly positive after the shift by one, with the sum
    wrapped around in an [int64] column and rounded in a [float64] column:
    the test for non-positive values of the power transform never holds,
    and the only [NumericError] left is the one of a column that is
    constant after the shift. *)
Theorem shift_positive_above_minus_one (lib : NumericLibrary)
    (nutr_df : DataFrame number) :
  (forall c v, In c (columns nutr_df) -> In v (snd c) -> shiftable v) ->
  (forall c v, In c (columns (float_values (add_scalar nutr_df 1))) ->
               In v (snd c) -> (0 < v)%Q) /\
  ~ has_nonpositive (float_values (add_scalar nutr_df 1)) /\
  (power_transform lib (float_values (add_scalar nutr_df 1)) = Error NumericError ->
   has_constant (float_values (add_scalar nutr_df 1))) /\
  (normalize_reduce lib nutr_df = Error NumericError ->
   has_constant (float_values (add_scalar nutr_df 1))).
Proof.
  intros Hgt.
  assert (Hpos : forall c v, In c (columns (float_values (add_scalar nutr_df 1))) ->
                             In v (snd c) -> (0 < v)%Q).
  { intros c v Hc Hv.
    destruct (add_scalar_In _ _ _ _ Hc Hv) as [c0 [v0 [Hc0 [Hv0 ->]]]].
    apply shiftable_positive. exact (Hgt c0 v0 Hc0 Hv0). }
  assert (Hno : ~ has_nonpositive (float_values (add_scalar nutr_df 1))).
  { intros [c [v [Hc [Hv Hle]]]]. specialize (Hpos c v Hc Hv). lra. }
  assert (Hpt : power_transform lib (float_values (add_scalar nutr_df 1))
                = Error NumericError ->
                has_constant (float_values (add_scalar nutr_df 1))).
  { intros H. apply boxcox_loop_NumericError in H. tauto. }
  split; [exact Hpos|]. split; [exact Hno|]. split; [exact Hpt|].
  intros H. apply normalize_reduce_error in H. exact (Hpt H).
Qed.

Lemma sample_numbers_shiftable :
  forall c v, In c (columns sample_numbers) -> In v (snd c) -> shiftable v.
Proof.
  intros c v Hc Hv. simpl in Hc.
  destruct Hc as [<-|[<-|[<-|[]]]]; simpl in Hv;
    destruct Hv as [<-|[<-|[]]]; cbn [shiftable]; try reflexivity; lia.
Qed.

Lemma shift_positive_above_minus_one_witness :
  (forall c v, In c (columns sample_numbers) -> In v (snd c) -> shiftable v) /\
  (forall c v, In c (columns (float_values (add_scalar sample_numbers 1))) ->
               In v (snd c) -> (0 < v)%Q) /\
  ~ has_nonpositive (float_values (add_scalar sample_numbers 1)).
Proof.
  split; [exact sample_numbers_shiftable|].
  destruct (@shift_positive_above_minus_one sample_library sample_numbers
              sample_numbers_shiftable) as [H1 [H2 _]].
  split; assumption.
Defined.

(** A numeric frame without missing values whose values are all finite,
    where the shift by one leaves a value that is not positive: the power
    transform raises its error. *)
Lemma shift_not_positive_counterexample :
  well_formed negative_nutr /\
  has_nonpositive (float_values (add_scalar negative_nutr 1)) /\
  (forall lib, power_transform lib (float_values (add_scalar negative_nutr 1))
               = Error NumericError) /\
  (forall lib, normalize_reduce lib negative_nutr = Error NumericError).
Proof.
  split; [|split; [|split]].
  - split; [|split].
    + apply distinctb_NoDup. reflexivity.
    + repeat constructor.
    + repeat constructor.
  - apply has_nonpositive_existsb. reflexivity.
  - intros lib. reflexivity.
  - intros lib. reflexivity.
Qed.

(** The largest [int64] is greater than -1 and is not positive once
    shifted: the sum wraps around to the smallest [int64], and the power
    transform raises its error. *)
Example shift_wraps_at_int64_max :
  columns (add_scalar overflow_nutr 1)
  = [(CStr "Energ_Kcal", [I64 718; I64 (-9223372036854775808)])] /\
  has_nonpositive (float_values (add_scalar overflow_nutr 1)) /\
  (forall lib, normalize_reduce lib overflow_nutr = Error NumericError).
Proof.
  split; [reflexivity|]. split.
  - apply has_nonpositive_existsb. reflexivity.
  - intros lib. reflexivity.
Qed.

(** Two positive doubles that differ can be equal once shifted: the sum
    with 1 is rounded, the column is constant, and the power transform
    raises its error on values that are all greater than -1. *)
Example shift_rounds_to_constant :
  columns (add_scalar rounded_nutr 1)
  = [(CStr "Water_(g)", [F64 (135 # 8); F64 (5 # 4)]);
     (CStr "Vit_D_mcg", [F64 1; F64 1])] /\
  has_constant (float_values (add_scalar rounded_nutr 1)) /\
  (forall lib, normalize_reduce lib rounded_nutr = Error NumericError).
Proof.
  split; [vm_compute; reflexivity|]. split.
  - exists (CStr "Vit_D_mcg", [1; 1]%Q). split; [|reflexivity].
    vm_compute. right; left; reflexivity.
  - intros lib. vm_compute. reflexivity.
Qed.

(** ** Column order *)

Lemma nth_error_combine {A B} (l : list A) (l' : list B) (j : nat) (a : A) (b : B) :
  nth_error l j = Some a -> nth_error l' j = Some b ->
  nth_error (combine l l') j = Some (a, b).
Proof.
  revert l l'; induction j as [|j IH]; intros [|x l] [|y l'] Ha Hb;
    simpl in *; try discriminate.
  - congruence.
  - apply IH; assumption.
Qed.

Lemma Series_nth {A} (data : list A) (ix : list clabel) (s : list (clabel * A))
    (j : nat) (name : clabel) :
  Series data ix = Ok s -> nth_error ix j = Some name ->
  exists w, nth_error data j = Some w /\ nth_error s j = Some (name, w).
Proof.
  unfold Series. destruct (Nat.eqb (length data) (length ix)) eqn:E; intros H Hj;
    [|discriminate].
  injection H as <-. apply Nat.eqb_eq in E.
  destruct (nth_error data j) as [w|] eqn:Ew.
  - exists w. split; [reflexivity | apply nth_error_combine; assumption].
  - apply nth_error_None in Ew.
    assert (j < length ix) by (apply nth_error_Some; congruence). lia.
Qed.

Lemma nth_error_firstn_Some {A} (n k : nat) (l : list A) (a : A) :
  nth_error (firstn n l) k = Some a -> nth_error l k = Some a.
Proof.
  revert k l; induction n as [|n IH]; intros k l H.
  - destruct k; discriminate.
  - destruct l as [|x l]; [destruct k; discriminate|].
    destruct k as [|k]; [exact H | simpl in *; apply IH; exact H].
Qed.

(** C9: the power transform and the standardization keep the order of the
    columns of the numeric frame: column [j] of the transformed frame, and
    of the standardized array, comes from column [j] of the numeric frame
    and from no other, and a loading vector indexed by the column names of
    the numeric frame pairs its [j]-th entry with the [j]-th name. *)
Theorem column_order_preserved (lib : NumericLibrary) (nutr_df : DataFrame Q)
    (nutr_df_TF : DataFrame R) :
  well_formed nutr_df ->
  power_transform lib nutr_df = Ok nutr_df_TF ->
  names nutr_df_TF = map TF (names nutr_df) /\
  (forall j name x, nth_error (columns nutr_df) j = Some (name, x) ->
     nth_error (columns nutr_df_TF) j = Some (TF name, transformed lib x) /\
     nth_error (StandardScaler_fit_transform (to_numpy nutr_df_TF)) j
     = Some (scale_column (transformed lib x))) /\
  (forall X k c, component_loadings lib X nutr_df k = Ok c ->
     exists v, nth_error (pca_components lib X) k = Some v /\
       forall j name, nth_error (names nutr_df) j = Some name ->
       exists w, nth_error v j = Some w /\ nth_error c j = Some (name, w)).
Proof.
  intros Hwf Hpt. apply (@power_transform_success lib nutr_df nutr_df_TF Hwf) in Hpt.
  subst nutr_df_TF.
  split; [|split].
  - unfold names; simpl. rewrite !map_map. reflexivity.
  - intros j name x Hj. unfold StandardScaler_fit_transform, to_numpy. simpl.
    rewrite !nth_error_map, Hj. simpl. split; reflexivity.
  - intros X k c Hc. unfold component_loadings in Hc.
    destruct (nth_error (firstn 5 (pca_components lib X)) k) as [v|] eqn:Ev;
      [|discriminate].
    exists v. split.
    + eapply nth_error_firstn_Some; exact Ev.
    + intros j name Hj. eapply Series_nth; eauto.
Qed.

Lemma column_order_preserved_witness :
  exists nutr_df_TF,
    well_formed shifted_nutr /\
    power_transform sample_library shifted_nutr = Ok nutr_df_TF /\
    names nutr_df_TF = [CStr "Water_(g)_TF"; CStr "Energ_Kcal_TF"; CStr "Protein_(g)_TF"] /\
    nth_error (columns nutr_df_TF) 1
    = Some (CStr "Energ_Kcal_TF", transformed sample_library [717 + 1; 876 + 1]%Q).
Proof.
  destruct (power_transform sample_library shifted_nutr)
    as [tf|e] eqn:E; [|vm_compute in E; discriminate].
  exists tf. split; [exact shifted_nutr_well_formed|]. split; [reflexivity|].
  destruct (@column_order_preserved sample_library shifted_nutr tf
              shifted_nutr_well_formed E) as [Hn [Hc _]].
  split; [exact Hn|].
  exact (proj1 (Hc 1 (CStr "Energ_Kcal") [717 + 1; 876 + 1]%Q eq_refl)).
Defined.

(** ** Standardization *)

Open Scope R_scope.

Lemma Rsum_map_mult (f : R -> R) (k : R) (x : list R) :
  Rsum (map (fun v => f v * k) x) = Rsum (map f x) * k.
Proof. induction x as [|a x IH]; simpl; [ring | rewrite IH; ring]. Qed.

Lemma Rsum_map_minus (m : R) (x : list R) :
  Rsum (map (fun v => v - m) x) = Rsum x - INR (length x) * m.
Proof.
  induction x as [|a x IH]; [simpl; ring|].
  change (length (a :: x)) with (S (length x)). rewrite S_INR.
  simpl. rewrite IH. ring.
Qed.

Lemma Rsum_squares_nonneg (f : R -> R) (x : list R) :
  0 <= Rsum (map (fun v => f v * f v) x).
Proof.
  induction x as [|a x IH]; simpl; [lra|].
  pose proof (Rle_0_sqr (f a)) as H. unfold Rsqr in H. lra.
Qed.

Lemma var_nonneg (x : list R) : 0 <= var x.
Proof.
  unfold var, mean. rewrite length_map.
  destruct x as [|a x].
  - simpl. unfold Rdiv. rewrite Rmult_0_l. lra.
  - apply Rmult_le_pos.
    + apply (Rsum_squares_nonneg (fun v => v - Rsum (a :: x) / INR (length (a :: x)))).
    + left. apply Rinv_0_lt_compat. apply lt_0_INR. simpl; lia.
Qed.

Lemma var_nonzero_nonempty (x : list R) : var x <> 0 -> INR (length x) <> 0.
Proof.
  intros H E. apply H. destruct x as [|a x].
  - unfold var, mean. simpl. unfold Rdiv. ring.
  - exfalso. apply (not_0_INR (length (a :: x))); [simpl; lia | exact E].
Qed.

(** The standardized column is centred, when the column is not empty. *)
Lemma scale_column_mean (x : list R) :
  INR (length x) <> 0 -> mean (scale_column x) = 0.
Proof.
  intros Hn. unfold mean at 1, scale_column. rewrite length_map.
  unfold Rdiv at 2.
  rewrite (Rsum_map_mult (fun v => v - mean x) (/ std x) x).
  rewrite Rsum_map_minus. unfold mean.
  replace (Rsum x - INR (length x) * (Rsum x / INR (length x))) with 0
    by (field; exact Hn).
  unfold Rdiv. ring.
Qed.

(** ... and its variance is 1, when the variance of the column is not 0. *)
Lemma scale_column_var (x : list R) : var x <> 0 -> var (scale_column x) = 1.
Proof.
  intros Hv. pose proof (@var_nonzero_nonempty x Hv) as Hn.
  assert (Hs : std x * std x = var x).
  { unfold std. apply sqrt_sqrt. apply var_nonneg. }
  assert (Hs0 : std x <> 0).
  { intros E. rewrite E in Hs. lra. }
  unfold var at 1. rewrite (@scale_column_mean x Hn).
  unfold mean at 1, scale_column. rewrite !length_map, map_map.
  rewrite (map_ext _ (fun v => (v - mean x) * (v - mean x) * (/ (std x * std x)))).
  2:{ intros v. field. exact Hs0. }
  rewrite (Rsum_map_mult (fun v => (v - mean x) * (v - mean x)) (/ (std x * std x)) x).
  rewrite Hs.
  assert (Hvar : Rsum (map (fun v => (v - mean x) * (v - mean x)) x) = var x * INR (length x)).
  { assert (E : var x = Rsum (map (fun v => (v - mean x) * (v - mean x)) x)
                        / INR (length x)).
    { unfold var, mean at 1. rewrite length_map. reflexivity. }
    rewrite E at 1. field. exact Hn. }
  rewrite Hvar. field. split; assumption.
Qed.

(** C1, amended: in exact arithmetic, every column of the standardized
    array that comes from a column whose variance is not 0 (a column that
    is not constant) has mean 0 and population standard deviation 1. *)
Theorem standardized_columns (X : matrix) (j : nat) (x : list R) :
  nth_error X j = Some x ->
  var x <> 0 ->
  exists y, nth_error (StandardScaler_fit_transform X) j = Some y /\
    length y = length x /\ mean y = 0 /\ std y = 1.
Proof.
  intros Hj Hv. exists (scale_column x).
  unfold StandardScaler_fit_transform. rewrite nth_error_map, Hj.
  split; [reflexivity|]. split; [unfold scale_column; apply length_map|].
  split.
  - apply scale_column_mean. apply var_nonzero_nonempty. exact Hv.
  - unfold std at 1. rewrite (@scale_column_var x Hv). apply sqrt_1.
Qed.

Lemma sample_array_var : var [1; 3] = 1.
Proof. unfold var, mean. simpl. field. Qed.

Lemma standardized_columns_witness :
  nth_error sample_array 0 = Some [1; 3] /\
  var [1; 3] <> 0 /\
  exists y, nth_error (StandardScaler_fit_transform sample_array) 0 = Some y /\
    length y = 2%nat /\ mean y = 0 /\ std y = 1.
Proof.
  assert (Hv : var [1; 3] <> 0) by (rewrite sample_array_var; lra).
  split; [reflexivity|]. split; [exact Hv|].
  exact (@standardized_columns sample_array 0 [1; 3] eq_refl Hv).
Defined.

(** A constant column stays constant under standardization: its standard
    deviation is 0, not 1. *)
Lemma constant_column_counterexample :
  exists y, nth_error (StandardScaler_fit_transform sample_array) 1 = Some y /\
    std y <> 1.
Proof.
  exists (scale_column [2; 2]). split; [reflexivity|].
  assert (Hm : mean [2; 2] = 2) by (unfold mean; simpl; field).
  assert (Hy : scale_column [2; 2] = [0; 0]).
  { unfold scale_column. simpl. rewrite Hm.
    replace ((2 - 2) / std [2; 2]) with 0 by (unfold Rdiv; ring). reflexivity. }
  rewrite Hy.
  assert (Hm0 : mean [0; 0] = 0) by (unfold mean; simpl; field).
  assert (Hv : var [0; 0] = 0).
  { unfold var. rewrite Hm0. simpl. unfold mean; simpl. field. }
  unfold std. rewrite Hv, sqrt_0. lra.
Qed.

Close Scope R_scope.

(** * Further properties of the notebook's cells *)

(** ** Failures and success of the column split *)

Lemma take_positions_out_of_range {A} (l : list A) (ps : list nat) :
  (exists p, In p ps /\ length l <= p) -> take_positions l ps = Error IndexError.
Proof.
  induction ps as [|q ps IH]; intros [p [Hin Hp]]; [contradiction|].
  simpl. destruct (nth_error l q) as [c|] eqn:E; [|reflexivity].
  destruct Hin as [->|Hin].
  - apply nth_error_None in Hp. congruence.
  - rewrite IH; [reflexivity | exists p; auto].
Qed.

(** X2: the positions of the descriptive columns are hard-coded: on a table
    with fewer than 54 columns the selection raises [IndexError]. *)
Theorem split_desc_too_few_columns (df : DataFrame value) :
  length (columns df) < 54 -> split_desc df = Error IndexError.
Proof.
  intros H. unfold split_desc, desc_cols, iloc_cols.
  rewrite take_positions_out_of_range; [reflexivity|].
  exists 53. split; [simpl; tauto | lia].
Qed.

Lemma split_desc_too_few_columns_witness :
  length (columns short_table) < 54 /\ split_desc short_table = Error IndexError.
Proof.
  assert (H : length (columns short_table) < 54) by (simpl; lia).
  split; [exact H | exact (@split_desc_too_few_columns short_table H)].
Defined.

Lemma existsb_has_label_In {A} (name : clabel) (cols : list (clabel * list A)) :
  existsb (has_label name) cols = true <-> In name (map fst cols).
Proof.
  rewrite existsb_exists. split.
  - intros [c [Hc Hl]]. unfold has_label in Hl. apply clabel_eqb_eq in Hl.
    subst name. apply in_map. exact Hc.
  - intros H. apply in_map_iff in H. destruct H as [c [<- Hc]].
    exists c. split; [exact Hc | apply clabel_eqb_refl].
Qed.

Lemma existsb_clabel_In (c : clabel) (labels : list clabel) :
  existsb (clabel_eqb c) labels = true <-> In c labels.
Proof.
  rewrite existsb_exists. split.
  - intros [l [Hl E]]. apply clabel_eqb_eq in E. subst l. exact Hl.
  - intros H. exists c. split; [exact H | apply clabel_eqb_refl].
Qed.

Lemma loc_col_absent {A} (df : DataFrame A) (name : clabel) :
  ~ In name (names df) -> loc_col df name = Error KeyError.
Proof.
  intros H. unfold loc_col.
  destruct (filter (has_label name) (columns df)) as [|c l] eqn:E; [reflexivity|].
  exfalso. apply H.
  assert (Hc : In c (filter (has_label name) (columns df))) by (rewrite E; left; reflexivity).
  apply filter_In in Hc. destruct Hc as [Hc Hl].
  unfold has_label in Hl. apply clabel_eqb_eq in Hl. subst name.
  unfold names. apply in_map. exact Hc.
Qed.

(** X3: the numeric split looks for the three names among the columns that are
    left once the last five are cut off: when one of [NDB_No],
    [FoodGroup], [Shrt_Desc] is not there, it raises [KeyError]. *)
Theorem split_nutr_missing_label (df : DataFrame value) (name : clabel) :
  In name [NDB_No; FoodGroup; Shrt_Desc] ->
  ~ In name (map fst (firstn (length (columns df) - 5) (columns df))) ->
  split_nutr df = Error KeyError.
Proof.
  intros Hname Habs. unfold split_nutr, nutr_cols, drop_cols.
  cbn [iloc_drop_last columns index].
  set (cols := firstn (length (columns df) - 5) (columns df)) in *.
  destruct (forallb (fun l => existsb (has_label l) cols) [FoodGroup; Shrt_Desc]) eqn:E;
    [|reflexivity].
  simpl. unfold set_index. rewrite loc_col_absent; [reflexivity|].
  unfold names; cbn [columns]. intros Hin.
  apply in_map_iff in Hin. destruct Hin as [c [Hc Hin]].
  apply filter_In in Hin. destruct Hin as [Hin _].
  rewrite forallb_forall in E.
  destruct Hname as [<-|[<-|[<-|[]]]].
  - apply Habs. rewrite <- Hc. apply in_map. exact Hin.
  - apply Habs. apply existsb_has_label_In. apply E. simpl; tauto.
  - apply Habs. apply existsb_has_label_In. apply E. simpl; tauto.
Qed.

Lemma split_nutr_missing_label_witness :
  In FoodGroup [NDB_No; FoodGroup; Shrt_Desc] /\
  ~ In FoodGroup (map fst (firstn (length (columns short_table) - 5) (columns short_table))) /\
  split_nutr short_table = Error KeyError.
Proof.
  assert (H1 : In FoodGroup [NDB_No; FoodGroup; Shrt_Desc]) by (simpl; tauto).
  assert (H2 : ~ In FoodGroup
                 (map fst (firstn (length (columns short_table) - 5) (columns short_table))))
    by (simpl; tauto).
  split; [exact H1|]. split; [exact H2|].
  exact (@split_nutr_missing_label short_table FoodGroup H1 H2).
Defined.

(** X4: [drop] removes the columns it is given and raises when one of them is
    not there: a second run of the cell
    [nutr_df = nutr_df.drop(['FoodGroup', 'Shrt_Desc'], axis=1)] raises
    [KeyError], whatever the frame. *)
Theorem drop_cols_twice {A} (df df' : DataFrame A) (labels : list clabel) :
  labels <> [] ->
  drop_cols df labels = Ok df' ->
  (forall l, In l labels -> ~ In l (names df')) /\
  drop_cols df' labels = Error KeyError.
Proof.
  intros Hne H. apply drop_cols_spec in H. destruct H as [_ Hc].
  assert (Hgone : forall l, In l labels -> ~ In l (names df')).
  { intros l Hl Hin. unfold names in Hin. rewrite Hc in Hin.
    apply in_map_iff in Hin. destruct Hin as [c [<- Hin]].
    apply filter_In in Hin. destruct Hin as [_ Hin].
    apply negb_true_iff in Hin.
    assert (existsb (clabel_eqb (fst c)) labels = true); [|congruence].
    apply existsb_clabel_In. exact Hl. }
  split; [exact Hgone|].
  unfold drop_cols. destruct labels as [|l labels]; [contradiction|].
  simpl. destruct (existsb (has_label l) (columns df')) eqn:E; [|reflexivity].
  exfalso. apply (Hgone l); [left; reflexivity|].
  apply existsb_has_label_In. exact E.
Qed.

Lemma drop_cols_twice_witness :
  exists df' : DataFrame value,
    [FoodGroup; Shrt_Desc] <> [] /\
    drop_cols short_table [FoodGroup; Shrt_Desc] = Ok df' /\
    names df' = [NDB_No] /\
    drop_cols df' [FoodGroup; Shrt_Desc] = Error KeyError.
Proof.
  destruct (drop_cols short_table [FoodGroup; Shrt_Desc]) as [d|e] eqn:E;
    [|vm_compute in E; discriminate].
  exists d. split; [discriminate|]. split; [reflexivity|].
  split.
  - vm_compute in E. injection E as <-. reflexivity.
  - exact (proj2 (@drop_cols_twice _ short_table d [FoodGroup; Shrt_Desc]
                    ltac:(discriminate) E)).
Defined.

(** X5: [set_index] moves the column out of the columns: the name is no longer
    a column label, the columns with another label all stay, and a second
    [set_index] on the same name raises [KeyError]. *)
Theorem set_index_consumes_column (df df' : DataFrame value) (name : clabel) :
  set_index df name = Ok df' ->
  ~ In name (names df') /\
  (forall c, fst c <> name -> (In c (columns df') <-> In c (columns df))) /\
  set_index df' name = Error KeyError.
Proof.
  intros H. apply set_index_spec in H. destruct H as [_ Hc].
  assert (Hgone : ~ In name (names df')).
  { unfold names. rewrite Hc. intros Hin.
    apply in_map_iff in Hin. destruct Hin as [c [<- Hin]].
    apply filter_In in Hin. destruct Hin as [_ Hin].
    apply negb_true_iff in Hin. unfold has_label in Hin.
    rewrite clabel_eqb_refl in Hin. discriminate. }
  split; [exact Hgone|]. split.
  - intros c Hne. rewrite Hc, filter_In. split; [tauto|].
    intros Hin. split; [exact Hin|].
    apply negb_true_iff. unfold has_label.
    destruct (clabel_eqb (fst c) name) eqn:E; [|reflexivity].
    apply clabel_eqb_eq in E. contradiction.
  - unfold set_index. rewrite loc_col_absent; [reflexivity | exact Hgone].
Qed.

Lemma set_index_consumes_column_witness :
  exists df' : DataFrame value,
    set_index short_table NDB_No = Ok df' /\
    index df' = [Num 1001; Num 1002] /\
    ~ In NDB_No (names df') /\
    set_index df' NDB_No = Error KeyError.
Proof.
  destruct (set_index short_table NDB_No) as [d|e] eqn:E;
    [|vm_compute in E; discriminate].
  exists d. split; [reflexivity|].
  destruct (@set_index_consumes_column short_table d NDB_No E) as [H1 [_ H3]].
  split; [|split; assumption].
  vm_compute in E. injection E as <-. reflexivity.
Defined.

Lemma NoDup_map_fst_filter {A B} (f : A * B -> bool) (l : list (A * B)) :
  NoDup (map fst l) -> NoDup (map fst (filter f l)).
Proof.
  induction l as [|c l IH]; intros H; [constructor|].
  simpl in H. inversion H as [|? ? Hc Hl]; subst. simpl.
  destruct (f c); [|apply IH; exact Hl].
  simpl. constructor; [|apply IH; exact Hl].
  intros Hin. apply Hc. apply in_map_iff in Hin. destruct Hin as [c' [E Hin]].
  apply filter_In in Hin. destruct Hin as [Hin _].
  rewrite <- E. apply in_map. exact Hin.
Qed.

Lemma NoDup_map_fst_firstn {A B} (k : nat) (l : list (A * B)) :
  NoDup (map fst l) -> NoDup (map fst (firstn k l)).
Proof.
  intros H. rewrite <- (firstn_skipn k l), map_app in H.
  apply NoDup_app_remove_r in H. exact H.
Qed.

(** Removing distinct labels that are all present removes as many columns. *)
Lemma drop_labels_length {A} (cols : list (clabel * list A)) (labels : list clabel) :
  NoDup (map fst cols) -> NoDup labels -> incl labels (map fst cols) ->
  length (filter (fun c => negb (existsb (clabel_eqb (fst c)) labels)) cols)
  = length cols - length labels.
Proof.
  intros Hc Hl Hincl.
  pose proof (filter_length (fun c : clabel * list A => existsb (clabel_eqb (fst c)) labels)
                            cols) as Hsum.
  assert (Hkept : length (filter (fun c : clabel * list A =>
                                    existsb (clabel_eqb (fst c)) labels) cols)
                  = length labels).
  { rewrite <- (length_map fst). symmetry. apply Permutation_length.
    apply NoDup_Permutation; [exact Hl | apply NoDup_map_fst_filter; exact Hc |].
    intros l. rewrite in_map_iff. split.
    - intros Hin. specialize (Hincl l Hin). apply in_map_iff in Hincl.
      destruct Hincl as [c [<- Hcin]]. exists c. split; [reflexivity|].
      apply filter_In. split; [exact Hcin | apply existsb_clabel_In; exact Hin].
    - intros [c [<- Hcin]]. apply filter_In in Hcin. destruct Hcin as [_ E].
      apply existsb_clabel_In. exact E. }
  cbv beta in Hsum. rewrite Hkept in Hsum. lia.
Qed.

Lemma take_positions_distinct {A} (l : list (clabel * list A)) (ps : list nat)
    (cs : list (clabel * list A)) :
  Forall2 (fun p c => nth_error l p = Some c) ps cs ->
  NoDup ps -> NoDup (map fst l) -> NoDup (map fst cs).
Proof.
  induction 1 as [|p c ps cs Hp Hrest IH]; intros Hps Hl; [constructor|].
  inversion Hps as [|? ? Hnotin Hps']; subst. simpl.
  constructor; [|apply IH; assumption].
  intros Hin. apply in_map_iff in Hin. destruct Hin as [c' [E Hin]].
  destruct (Forall2_In_r _ Hrest Hin) as [p' [Hp' Hnth]].
  assert (p' = p) by (eapply distinct_labels_position; eauto).
  subst p'. contradiction.
Qed.

Lemma set_index_distinct (df : DataFrame value) (name : clabel) (ix : list value) :
  NoDup (names df) -> In (name, ix) (columns df) ->
  set_index df name
  = Ok (mkDF ix (filter (fun c => negb (existsb (clabel_eqb (fst c)) [name])) (columns df))).
Proof.
  intros Hnd Hin. unfold set_index. rewrite (@loc_col_distinct _ df name ix Hnd Hin). simpl.
  do 2 f_equal. apply filter_ext. intros c. unfold has_label.
  rewrite orb_false_r. reflexivity.
Qed.

(** X1: on a table of at least 54 distinctly named columns that starts with
    [NDB_No] and has [FoodGroup] and [Shrt_Desc] before its last five
    columns, both splits succeed: the two frames are indexed by the
    identifiers of column 0, the descriptive frame has six columns and the
    numeric frame all the columns but eight. *)
Theorem splits_succeed (df : DataFrame value) (ids : list value) :
  54 <= length (columns df) ->
  NoDup (names df) ->
  nth_error (columns df) 0 = Some (NDB_No, ids) ->
  In FoodGroup (map fst (firstn (length (columns df) - 5) (columns df))) ->
  In Shrt_Desc (map fst (firstn (length (columns df) - 5) (columns df))) ->
  exists desc_df nutr_df,
    split_desc df = Ok desc_df /\ split_nutr df = Ok nutr_df /\
    index desc_df = ids /\ index nutr_df = ids /\
    length (columns desc_df) = 6 /\
    length (columns nutr_df) = length (columns df) - 8.
Proof.
  intros Hlen Hnd H0 Hfg Hsd.
  (* the descriptive frame *)
  destruct (@desc_cols_total df Hlen) as [d Hd].
  pose proof (iloc_cols_spec _ _ Hd) as [_ Hd2].
  assert (Hnd_d : NoDup (names d)).
  { unfold names. eapply take_positions_distinct; eauto.
    unfold desc_positions. simpl. repeat constructor; simpl; intuition lia. }
  assert (Hin_d : In (NDB_No, ids) (columns d)).
  { unfold desc_positions in Hd2. simpl in Hd2.
    inversion Hd2 as [|? c ? cs Hc _]; subst. rewrite H0 in Hc. injection Hc as <-.
    left; reflexivity. }
  assert (Hlen_d : length (columns d) = 7).
  { apply Forall2_length in Hd2. rewrite <- Hd2. reflexivity. }
  (* the numeric frame *)
  set (cols := firstn (length (columns df) - 5) (columns df)) in *.
  assert (Hnd_c : NoDup (map fst cols)) by (apply NoDup_map_fst_firstn; exact Hnd).
  assert (Hlen_c : length cols = length (columns df) - 5).
  { unfold cols. rewrite length_firstn. lia. }
  assert (Hin_c : In (NDB_No, ids) cols).
  { apply (nth_error_In cols 0). unfold cols.
    destruct (length (columns df) - 5) as [|k] eqn:En; [lia|].
    destruct (columns df) as [|c0 r]; [discriminate | exact H0]. }
  assert (Hdrop : nutr_cols df
                  = Ok (mkDF (index df)
                          (filter (fun c => negb (existsb (clabel_eqb (fst c))
                                                          [FoodGroup; Shrt_Desc])) cols))).
  { unfold nutr_cols, drop_cols. cbn [iloc_drop_last columns index]. fold cols.
    replace (forallb (fun l => existsb (has_label l) cols) [FoodGroup; Shrt_Desc])
      with true; [reflexivity|].
    symmetry. simpl. rewrite !andb_true_iff. repeat split;
      apply existsb_has_label_In; assumption. }
  set (n0 := mkDF (index df)
               (filter (fun c => negb (existsb (clabel_eqb (fst c))
                                               [FoodGroup; Shrt_Desc])) cols)) in *.
  assert (Hnd_n : NoDup (names n0)) by (apply NoDup_map_fst_filter; exact Hnd_c).
  assert (Hin_n : In (NDB_No, ids) (columns n0)).
  { apply filter_In. split; [exact Hin_c | reflexivity]. }
  assert (Hlen_n : length (columns n0) = length (columns df) - 7).
  { unfold n0; cbn [columns]. rewrite drop_labels_length.
    - simpl. lia.
    - exact Hnd_c.
    - repeat constructor; simpl; intuition discriminate.
    - intros l [<-|[<-|[]]]; assumption. }
  eexists. eexists. unfold split_desc, split_nutr. rewrite Hd, Hdrop. simpl.
  rewrite (@set_index_distinct d NDB_No ids Hnd_d Hin_d),
    (@set_index_distinct n0 NDB_No ids Hnd_n Hin_n).
  split; [reflexivity|]. split; [reflexivity|]. cbn [index columns].
  split; [reflexivity|]. split; [reflexivity|].
  split.
  - rewrite drop_labels_length.
    + rewrite Hlen_d. reflexivity.
    + exact Hnd_d.
    + repeat constructor. simpl; tauto.
    + intros l [<-|[]]. change NDB_No with (fst (NDB_No, ids)). apply in_map. exact Hin_d.
  - rewrite drop_labels_length.
    + rewrite Hlen_n. simpl. lia.
    + exact Hnd_n.
    + repeat constructor. simpl; tauto.
    + intros l [<-|[]]. change NDB_No with (fst (NDB_No, ids)). apply in_map. exact Hin_n.
Qed.

Lemma splits_succeed_witness :
  exists desc_df nutr_df,
    split_desc (dropna sample_table) = Ok desc_df /\
    split_nutr (dropna sample_table) = Ok nutr_df /\
    index desc_df = [Num 1001; Num 1003] /\ index nutr_df = [Num 1001; Num 1003] /\
    length (columns desc_df) = 6 /\
    length (columns nutr_df) = 46.
Proof.
  apply (@splits_succeed (dropna sample_table) [Num 1001; Num 1003]).
  - vm_compute. lia.
  - exact sample_table_dropna_distinct.
  - reflexivity.
  - vm_compute. tauto.
  - vm_compute. tauto.
Defined.

(** ** Cleaning: what is left *)

Lemma take_rows_length_eq {A B} (m : list bool) (l : list A) (l' : list B) :
  length l = length m -> length l' = length m ->
  length (take_rows m l) = length (take_rows m l').
Proof.
  intros H H'. apply Nat.le_antisymm; apply take_rows_length_le; lia.
Qed.

Lemma dropna_rectangular (t : DataFrame value) :
  rectangular t -> rectangular (dropna t).
Proof.
  unfold rectangular. rewrite !Forall_forall. intros H c Hc.
  unfold dropna in Hc |- *. cbn [columns index] in *.
  apply in_map_iff in Hc. destruct Hc as [c0 [<- Hc0]]. cbn [snd].
  apply take_rows_length_eq; rewrite dropna_mask_length; [apply H; exact Hc0 | reflexivity].
Qed.

(** X6: after [dropna] no cell is missing, whatever the table, and the columns
    keep their names and their order. *)
Theorem dropna_leaves_no_missing (t : DataFrame value) :
  (forall c v, In c (columns (dropna t)) -> In v (snd c) -> notnull v = true) /\
  names (dropna t) = names t.
Proof.
  split.
  - intros c v Hc Hv. apply In_nth_error in Hv. destruct Hv as [i Hi].
    pose proof (dropna_rows_notnull t i) as H. unfold row_notnull in H.
    rewrite forallb_forall in H. specialize (H c Hc). rewrite Hi in H. exact H.
  - apply dropna_names.
Qed.

(** ** Shape of the frames the pipeline builds *)

(** X8: the two frames of the split are rectangular when the table is: their
    index, a column of the table, has one label per row. *)
Theorem splits_rectangular (df desc_df nutr_df : DataFrame value) :
  rectangular df ->
  split_desc df = Ok desc_df ->
  split_nutr df = Ok nutr_df ->
  rectangular desc_df /\ rectangular nutr_df /\
  length (index desc_df) = length (index df) /\
  length (index nutr_df) = length (index df).
Proof.
  intros Hrect Hd Hn. unfold rectangular in *. rewrite Forall_forall in Hrect.
  pose proof (@split_desc_index df desc_df Hd) as Hdi.
  pose proof (@split_nutr_index df nutr_df Hn) as Hni.
  pose proof (Hrect _ Hdi) as Hdl. pose proof (Hrect _ Hni) as Hnl.
  cbn [snd] in Hdl, Hnl.
  unfold split_desc in Hd.
  destruct (desc_cols df) as [d|e] eqn:Ed; simpl in Hd; [|discriminate].
  apply iloc_cols_spec in Ed. destruct Ed as [_ Ed].
  apply set_index_spec in Hd. destruct Hd as [_ Hdc].
  unfold split_nutr in Hn.
  destruct (nutr_cols df) as [n|e] eqn:En; simpl in Hn; [|discriminate].
  apply drop_cols_spec in En. destruct En as [_ En].
  apply set_index_spec in Hn. destruct Hn as [_ Hnc].
  split; [|split; [|split; assumption]].
  - rewrite Forall_forall. intros c Hc. rewrite Hdc in Hc.
    apply filter_In in Hc. destruct Hc as [Hc _].
    rewrite Hdl. apply Hrect. eapply Forall2_nth_In; eauto.
  - rewrite Forall_forall. intros c Hc. rewrite Hnc, En in Hc.
    apply filter_In in Hc. destruct Hc as [Hc _].
    apply filter_In in Hc. destruct Hc as [Hc _].
    unfold iloc_drop_last in Hc; cbn [columns] in Hc.
    apply firstn_In_nth in Hc. destruct Hc as [i [_ Hc]].
    rewrite Hnl. apply Hrect. eapply nth_error_In; exact Hc.
Qed.

Lemma splits_rectangular_witness :
  exists desc_df nutr_df,
    rectangular (dropna sample_table) /\
    split_desc (dropna sample_table) = Ok desc_df /\
    split_nutr (dropna sample_table) = Ok nutr_df /\
    rectangular desc_df /\ rectangular nutr_df /\
    length (index desc_df) = 2 /\ length (index nutr_df) = 2.
Proof.
  assert (Hr : rectangular (dropna sample_table)).
  { apply dropna_rectangular.
    unfold rectangular. apply Forall_forall. intros [n x] Hc.
    unfold sample_table in Hc; cbn [columns index] in Hc |- *.
    apply in_combine_r in Hc. apply in_map_iff in Hc. destruct Hc as [i [<- _]].
    reflexivity. }
  destruct (split_desc (dropna sample_table)) as [d|e] eqn:Ed;
    [|vm_compute in Ed; discriminate].
  destruct (split_nutr (dropna sample_table)) as [n|e] eqn:En;
    [|vm_compute in En; discriminate].
  exists d, n. split; [exact Hr|]. split; [reflexivity|]. split; [reflexivity|].
  exact (@splits_rectangular (dropna sample_table) d n Hr Ed En).
Defined.

Lemma setitem_spec {A} (df df' : DataFrame A) (name : clabel) (v : list A) :
  setitem df name v = Ok df' ->
  index df' = index df /\
  (rectangular df -> rectangular df') /\
  (NoDup (names df) -> NoDup (names df')) /\
  (forall n, In n (names df') <-> In n (names df) \/ n = name).
Proof.
  unfold setitem. destruct (Nat.eqb (length v) (length (index df))) eqn:El;
    intros H; [|discriminate].
  apply Nat.eqb_eq in El. injection H as <-. cbn [index columns].
  destruct (existsb (has_label name) (columns df)) eqn:Ex.
  - assert (Hn : map fst (map (fun c => if has_label name c then (fst c, v) else c)
                             (columns df)) = map fst (columns df)).
    { rewrite map_map. apply map_ext. intros c. destruct (has_label name c); reflexivity. }
    split; [reflexivity|]. split; [|split].
    + unfold rectangular. cbn [index columns]. rewrite !Forall_forall.
      intros H c Hc. apply in_map_iff in Hc. destruct Hc as [c0 [<- Hc0]].
      destruct (has_label name c0); [exact El | apply H; exact Hc0].
    + unfold names. cbn [columns]. rewrite Hn. tauto.
    + intros n. unfold names. cbn [columns]. rewrite Hn. split; [tauto|].
      intros [H| ->]; [exact H|]. apply existsb_has_label_In. exact Ex.
  - split; [reflexivity|]. split; [|split].
    + unfold rectangular. cbn [index columns]. rewrite !Forall_forall.
      intros H c Hc. apply in_app_or in Hc. destruct Hc as [Hc|[<-|[]]];
        [apply H; exact Hc | exact El].
    + unfold names. cbn [columns]. rewrite map_app. intros H.
      apply NoDup_app; [exact H | repeat constructor; simpl; tauto |].
      intros a Ha [<-|[]]. simpl in Ex.
      assert (existsb (has_label name) (columns df) = true); [|congruence].
      apply existsb_has_label_In. exact Ha.
    + intros n. unfold names. cbn [columns]. rewrite map_app, in_app_iff. simpl.
      intuition congruence.
Qed.

Lemma boxcox_loop_shape (lib : NumericLibrary) (df : DataFrame Q)
    (cols : list clabel) (acc tf : DataFrame R) :
  boxcox_loop lib df cols acc = Ok tf ->
  index tf = index acc /\
  (rectangular acc -> rectangular tf) /\
  (NoDup (names acc) -> NoDup (names tf)) /\
  (forall n, In n (names tf) <-> In n (names acc) \/ In n (map TF cols)).
Proof.
  revert acc; induction cols as [|col rest IH]; intros acc H; simpl in H.
  - injection H as <-. simpl. intuition.
  - destruct (loc_col df col) as [x|e]; simpl in H; [|discriminate].
    destruct (boxcox lib x) as [out|e]; simpl in H; [|discriminate].
    destruct (getitem0 out) as [y|e]; simpl in H; [|discriminate].
    destruct (setitem acc (TF col) y) as [acc'|e] eqn:Es; simpl in H;
      [|discriminate].
    apply setitem_spec in Es. destruct Es as [E1 [E2 [E3 E4]]].
    destruct (IH _ H) as [I1 [I2 [I3 I4]]].
    split; [congruence|]. split; [tauto|]. split; [tauto|].
    intros n. rewrite I4, E4. simpl. intuition.
Qed.

(** X9: whenever the power transform succeeds, whatever the frame it was
    given, it returns a rectangular frame on the same index whose labels
    are distinct and are exactly the names [col_TF] of the columns read. *)
Theorem power_transform_shape (lib : NumericLibrary) (nutr_df : DataFrame Q)
    (nutr_df_TF : DataFrame R) :
  power_transform lib nutr_df = Ok nutr_df_TF ->
  index nutr_df_TF = index nutr_df /\
  rectangular nutr_df_TF /\
  NoDup (names nutr_df_TF) /\
  (forall n, In n (names nutr_df_TF) <-> In n (map TF (names nutr_df))).
Proof.
  intros H. apply boxcox_loop_shape in H. destruct H as [H1 [H2 [H3 H4]]].
  split; [exact H1|]. split; [apply H2; constructor|].
  split; [apply H3; constructor|].
  intros n. rewrite H4. simpl. tauto.
Qed.

Lemma power_transform_shape_witness :
  exists nutr_df_TF,
    power_transform sample_library shifted_nutr = Ok nutr_df_TF /\
    index nutr_df_TF = [Num 1001; Num 1003] /\
    rectangular nutr_df_TF /\
    NoDup (names nutr_df_TF).
Proof.
  destruct (power_transform sample_library shifted_nutr)
    as [tf|e] eqn:E; [|vm_compute in E; discriminate].
  exists tf. split; [reflexivity|].
  destruct (@power_transform_shape sample_library shifted_nutr tf E)
    as [H1 [H2 [H3 _]]].
  split; [exact H1|]. split; assumption.
Defined.

(** ** Joining on the index *)

Lemma value_eqb_refl (v : value) : value_eqb v v = true.
Proof.
  destruct v as [|q|s]; simpl;
    [reflexivity | apply Qeq_bool_refl | apply String.eqb_refl].
Qed.

Lemma value_eqb_sym (a b : value) : value_eqb a b = value_eqb b a.
Proof.
  destruct a as [|p|s], b as [|q|t]; simpl; try reflexivity.
  - apply Qeq_bool_comm.
  - apply String.eqb_sym.
Qed.

Lemma filter_none {A} (f : A -> bool) (l : list A) :
  (forall x, In x l -> f x = false) -> filter f l = [].
Proof.
  induction l as [|a l IH]; intros H; [reflexivity|].
  simpl. rewrite (H a (or_introl eq_refl)). apply IH.
  intros x Hx. apply H. right; exact Hx.
Qed.

(** With unique labels, the label of row [i] is found at row [i] only. *)
Lemma locate_unique_from (l : list value) (k i : nat) :
  unique_labels l = true -> i < length l ->
  map fst (filter (fun p => value_eqb (snd p) (nth i l NaN))
                  (combine (seq k (length l)) l)) = [k + i].
Proof.
  revert k i; induction l as [|a r IH]; intros k i Hu Hi; [simpl in Hi; lia|].
  simpl in Hu. apply andb_true_iff in Hu. destruct Hu as [Ha Hr].
  apply negb_true_iff in Ha.
  destruct i as [|i]; cbn [length seq combine filter nth snd].
  - rewrite value_eqb_refl. cbn [map fst].
    rewrite filter_none; [f_equal; lia|].
    intros [j x] Hx. cbn [snd]. apply in_combine_r in Hx.
    rewrite value_eqb_sym.
    destruct (value_eqb a x) eqn:E; [|reflexivity].
    assert (existsb (value_eqb a) r = true); [|congruence].
    apply existsb_exists. exists x. auto.
  - assert (Hi' : i < length r) by (simpl in Hi; lia).
    rewrite (existsb_nth (value_eqb a) r NaN Hi' Ha).
    rewrite IH; [f_equal; lia | exact Hr | exact Hi'].
Qed.

Lemma flat_map_singletons {A B} (f : A -> list B) (g : A -> B) (l : list A) :
  (forall a, In a l -> f a = [g a]) -> flat_map f l = map g l.
Proof.
  induction l as [|a l IH]; intros H; [reflexivity|].
  simpl. rewrite (H a (or_introl eq_refl)). simpl. f_equal.
  apply IH. intros x Hx. apply H. right; exact Hx.
Qed.

Lemma join_rows_aligned (l : list value) :
  unique_labels l = true ->
  join_rows l l = map (fun i => (i, Some i)) (seq 0 (length l)).
Proof.
  intros Hu. unfold join_rows. apply flat_map_singletons.
  intros i Hi. apply in_seq in Hi. unfold locate.
  rewrite (locate_unique_from l 0 Hu); [reflexivity | lia].
Qed.

Lemma map_nth_seq_id {A} (d : A) (l : list A) :
  map (fun i => nth i l d) (seq 0 (length l)) = l.
Proof.
  induction l as [|a l IH]; [reflexivity|].
  cbn [length seq map nth]. f_equal.
  rewrite <- seq_shift, map_map. exact IH.
Qed.

(** Joining two rectangular frames that carry the same unique labels, and
    no common column label, puts their columns side by side. *)
Lemma join_aligned {A} (na : A) (left right : DataFrame A) :
  index right = index left ->
  unique_labels (index left) = true ->
  rectangular left -> rectangular right ->
  (forall c, In c (names left) -> ~ In c (names right)) ->
  join na left right = Ok (mkDF (index left) (columns left ++ columns right)).
Proof.
  intros Hix Hu Hl Hr Hdisj. unfold join.
  replace (existsb (fun c => existsb (has_label (fst c)) (columns right)) (columns left))
    with false.
  2:{ symmetry. destruct (existsb _ (columns left)) eqn:E; [|reflexivity].
      exfalso. apply existsb_exists in E. destruct E as [c [Hc E]].
      apply existsb_has_label_In in E.
      apply (Hdisj (fst c)); [apply in_map; exact Hc | exact E]. }
  rewrite Hix, (join_rows_aligned _ Hu). rewrite !map_map. cbn [fst snd].
  rewrite map_nth_seq_id. f_equal. f_equal. f_equal.
  - rewrite <- (map_id (columns left)) at 2. apply map_ext_in. intros c Hc.
    unfold rectangular in Hl. rewrite Forall_forall in Hl.
    rewrite map_map. cbn [fst]. rewrite <- (Hl c Hc), map_nth_seq_id.
    destruct c; reflexivity.
  - rewrite <- (map_id (columns right)) at 2. apply map_ext_in. intros c Hc.
    unfold rectangular in Hr. rewrite Forall_forall in Hr.
    rewrite map_map. cbn [snd]. rewrite <- Hix, <- (Hr c Hc), map_nth_seq_id.
    destruct c; reflexivity.
Qed.

Lemma join_rows_length (l r : list value) : length l <= length (join_rows l r).
Proof.
  unfold join_rows. set (f := fun i : nat => _).
  assert (Hf : forall i, 1 <= length (f i)).
  { intros i. unfold f. destruct (locate r (nth i l NaN)); simpl; lia. }
  assert (H : forall s : list nat, length s <= length (flat_map f s)).
  { induction s as [|i s IH]; [reflexivity|].
    cbn [flat_map length]. rewrite length_app. specialize (Hf i). lia. }
  specialize (H (seq 0 (length l))). rewrite length_seq in H. exact H.
Qed.

(** ** The frames of the components and of the clusters *)

Lemma map_combine_snd {A B C} (g : B -> C) (a : list A) (b : list B) :
  map (fun c => (fst c, g (snd c))) (combine a b) = combine a (map g b).
Proof.
  revert b; induction a as [|x a IH]; intros [|y b]; simpl; try reflexivity.
  f_equal. apply IH.
Qed.

Lemma map_combine_fst {A B C} (h : A -> C) (a : list A) (b : list B) :
  map (fun c => (h (fst c), snd c)) (combine a b) = combine (map h a) b.
Proof.
  revert b; induction a as [|x a IH]; intros [|y b]; simpl; try reflexivity.
  f_equal. apply IH.
Qed.

Lemma combine_firstn_l {A B} (a : list A) (b : list B) :
  combine (firstn (length b) a) b = combine a b.
Proof.
  revert b; induction a as [|x a IH]; intros [|y b]; simpl; try reflexivity.
  f_equal. apply IH.
Qed.

Lemma combine_In_fst {A B} (a : list A) (b : list B) (x : A) :
  In x (map fst (combine a b)) -> In x a.
Proof.
  intros H. apply in_map_iff in H. destruct H as [[u v] [<- H]].
  apply in_combine_l in H. exact H.
Qed.

Lemma projected_run (desc_df : DataFrame value) (pca : matrix) :
  Forall (fun c => length c = length (index desc_df)) pca ->
  projected desc_df pca
  = Ok (mkDF (index desc_df)
          (combine (map CInt (seq 0 (length (firstn 5 pca)))) (firstn 5 pca))).
Proof.
  intros H. unfold projected, DataFrame_of_array, slice_cols.
  replace (forallb (fun c => Nat.eqb (length c) (length (index desc_df))) (firstn 5 pca))
    with true; [reflexivity|].
  symmetry. apply forallb_forall. intros c Hc. apply Nat.eqb_eq.
  rewrite Forall_forall in H. apply H.
  apply firstn_In_nth in Hc. destruct Hc as [i [_ Hc]]. eapply nth_error_In; exact Hc.
Qed.

Lemma coords_rectangular (ix : list value) (ls : list clabel) (X : matrix) :
  Forall (fun c => length c = length ix) X ->
  rectangular (map_cells Coord (mkDF ix (combine ls X))).
Proof.
  intros H. unfold rectangular, map_cells. cbn [index columns].
  apply Forall_forall. intros c Hc. apply in_map_iff in Hc.
  destruct Hc as [[l x] [<- Hc]]. cbn [snd]. rewrite length_map.
  apply in_combine_r in Hc. rewrite Forall_forall in H. apply H. exact Hc.
Qed.

Lemma coords_names (ix : list value) (k : nat) (X : matrix) (c : clabel) :
  In c (names (map_cells Coord (mkDF ix (combine (map CInt (seq 0 k)) X)))) ->
  exists j, c = CInt j.
Proof.
  unfold names, map_cells. cbn [columns]. rewrite map_map. cbn [fst].
  intros H. apply combine_In_fst in H. apply in_map_iff in H.
  destruct H as [j [<- _]]. exists j; reflexivity.
Qed.

Lemma map_cells_rectangular {A B} (f : A -> B) (df : DataFrame A) :
  rectangular df -> rectangular (map_cells f df).
Proof.
  unfold rectangular, map_cells. cbn [index columns]. rewrite !Forall_forall.
  intros H c Hc. apply in_map_iff in Hc. destruct Hc as [c0 [<- Hc0]].
  cbn [snd]. rewrite length_map. apply H. exact Hc0.
Qed.

Lemma map_cells_names {A B} (f : A -> B) (df : DataFrame A) :
  names (map_cells f df) = names df.
Proof. unfold names, map_cells. cbn [columns]. rewrite map_map. reflexivity. Qed.

Lemma firstn_Forall {A} (P : A -> Prop) (k : nat) (l : list A) :
  Forall P l -> Forall P (firstn k l).
Proof.
  rewrite !Forall_forall. intros H x Hx.
  apply firstn_In_nth in Hx. destruct Hx as [i [_ Hx]].
  apply H. eapply nth_error_In; exact Hx.
Qed.

(** X11: when the descriptive frame is rectangular with unique row labels and
    header names other than [Cluster], and the coordinates and the cluster
    numbers have one entry per row, the final frame holds, on the same
    rows in the same order, the first five coordinates (fewer when there
    are fewer components) labelled by their positions, then the cluster
    numbers, then the descriptive columns: no row is added, lost or filled
    in. *)
Theorem clustered_frame (desc_df : DataFrame value) (pca : matrix) (labels : list nat) :
  unique_labels (index desc_df) = true ->
  rectangular desc_df ->
  Forall is_header (names desc_df) ->
  ~ In Cluster_col (names desc_df) ->
  Forall (fun c => length c = length (index desc_df)) pca ->
  length labels = length (index desc_df) ->
  clustered desc_df pca labels
  = Ok (mkDF (index desc_df)
          (combine (map CInt (seq 0 (length (firstn 5 pca))))
                   (map (map Coord) (firstn 5 pca))
           ++ (Cluster_col, map Cluster labels)
              :: map (fun c => (fst c, map Desc (snd c))) (columns desc_df))).
Proof.
  intros Hu Hr Hh Hc Hp Hl. unfold clustered.
  rewrite (projected_run desc_df Hp). cbn [bind].
  set (k := length (firstn 5 pca)). set (X := firstn 5 pca).
  assert (HX : Forall (fun c => length c = length (index desc_df)) X)
    by (apply firstn_Forall; exact Hp).
  rewrite setitem_fresh.
  - cbn [bind]. rewrite join_aligned.
    + cbn [index columns map_cells]. rewrite map_combine_snd, <- app_assoc. reflexivity.
    + reflexivity.
    + exact Hu.
    + unfold rectangular. cbn [index columns]. apply Forall_app. split.
      * apply (coords_rectangular (index desc_df) (map CInt (seq 0 k)) HX).
      * repeat constructor. cbn [snd]. rewrite length_map. exact Hl.
    + apply map_cells_rectangular. exact Hr.
    + intros c Hin. rewrite map_cells_names. unfold names in Hin.
      cbn [columns] in Hin. rewrite map_app in Hin. apply in_app_or in Hin.
      destruct Hin as [Hin|[<-|[]]]; [|exact Hc].
      destruct (coords_names _ _ _ _ Hin) as [j ->].
      intros Hd. rewrite Forall_forall in Hh. exact (Hh _ Hd).
  - cbn [index map_cells]. rewrite length_map. exact Hl.
  - intros Hin. destruct (coords_names _ _ _ _ Hin) as [j E]. discriminate.
Qed.

Lemma sample_desc_rectangular : rectangular sample_desc.
Proof. repeat constructor. Qed.

Lemma sample_pca_lengths :
  Forall (fun c => length c = length (index sample_desc)) sample_pca.
Proof. repeat constructor. Qed.

Lemma clustered_frame_witness :
  exists out,
    clustered sample_desc sample_pca (grouper sample_library sample_pca) = Ok out /\
    index out = [Num 1001; Num 1003] /\
    names out = [CInt 0; CInt 1; CInt 2; CInt 3; CInt 4; Cluster_col; FoodGroup;
                 Shrt_Desc; CStr "GmWt_Desc1"; CStr "GmWt_2"; CStr "GmWt_Desc2";
                 CStr "Refuse_Pct"] /\
    loc_col out Shrt_Desc = Ok [Desc (Str "BUTTER"); Desc (Str "CHEESE")].
Proof.
  eexists. split.
  - apply (@clustered_frame sample_desc sample_pca (grouper sample_library sample_pca)).
    + reflexivity.
    + exact sample_desc_rectangular.
    + repeat constructor.
    + simpl. intuition discriminate.
    + exact sample_pca_lengths.
    + reflexivity.
  - split; [reflexivity|]. split; reflexivity.
Defined.

(** X12: when the descriptive frame is rectangular with unique row labels,
    its columns are the six the notebook names and the coordinates have one
    entry per row, joining the descriptive columns to the coordinates,
    dropping them again and renaming gives back the coordinates alone, on
    the same rows: the first five columns of [pca] (fewer when there are
    fewer components) under the names [c1] to [c5]. *)
Theorem components_frame_result (desc_df : DataFrame value) (pca : matrix) :
  unique_labels (index desc_df) = true ->
  rectangular desc_df ->
  (forall l, In l (names desc_df) <-> In l desc_labels) ->
  Forall (fun c => length c = length (index desc_df)) pca ->
  components_frame desc_df pca
  = Ok (mkDF (index desc_df)
          (combine [CStr "c1"; CStr "c2"; CStr "c3"; CStr "c4"; CStr "c5"]
                   (map (map Coord) (firstn 5 pca)))).
Proof.
  intros Hu Hr Hn Hp. unfold components_frame.
  rewrite (projected_run desc_df Hp). cbn [bind].
  set (X := firstn 5 pca).
  assert (HX : Forall (fun c => length c = length (index desc_df)) X)
    by (apply firstn_Forall; exact Hp).
  assert (Hk : length X <= 5) by (unfold X; apply firstn_le_length).
  rewrite join_aligned.
  - cbn [bind]. unfold drop_cols. cbn [index columns map_cells].
    set (L := map (fun c : clabel * list R => (fst c, map Coord (snd c)))
                  (combine (map CInt (seq 0 (length X))) X)).
    set (D := map (fun c : clabel * list value => (fst c, map Desc (snd c)))
                  (columns desc_df)).
    assert (HD : map fst D = names desc_df).
    { unfold D, names. rewrite map_map. reflexivity. }
    replace (forallb (fun l => existsb (has_label l) (L ++ D)) desc_labels) with true.
    2:{ symmetry. apply forallb_forall. intros l Hl.
        apply existsb_has_label_In. rewrite map_app, in_app_iff. right.
        rewrite HD. apply Hn. exact Hl. }
    rewrite filter_app.
    replace (filter (fun c : clabel * list cell =>
                       negb (existsb (clabel_eqb (fst c)) desc_labels)) D) with (@nil (clabel * list cell)).
    2:{ symmetry. apply filter_none. intros c Hc. apply negb_false_iff.
        apply existsb_clabel_In. apply Hn. rewrite <- HD. apply in_map. exact Hc. }
    replace (filter (fun c : clabel * list cell =>
                       negb (existsb (clabel_eqb (fst c)) desc_labels)) L) with L.
    2:{ symmetry. apply forallb_filter_id. apply forallb_forall. intros c Hc.
        assert (Hj : exists j, fst c = CInt j).
        { unfold L in Hc. apply in_map_iff in Hc. destruct Hc as [[l x] [<- Hc]].
          apply in_combine_l in Hc. apply in_map_iff in Hc.
          destruct Hc as [j [<- _]]. exists j; reflexivity. }
        destruct Hj as [j ->]. reflexivity. }
    rewrite app_nil_r. cbn [bind]. unfold rename. cbn [index columns]. do 2 f_equal.
    unfold L. rewrite map_combine_snd, map_combine_fst.
    rewrite <- (combine_firstn_l [CStr "c1"; CStr "c2"; CStr "c3"; CStr "c4"; CStr "c5"]
                  (map (map Coord) X)).
    f_equal. rewrite length_map.
    destruct (length X) as [|[|[|[|[|[|k]]]]]]; try reflexivity; lia.
  - reflexivity.
  - exact Hu.
  - apply (coords_rectangular (index desc_df) (map CInt (seq 0 (length X))) HX).
  - apply map_cells_rectangular. exact Hr.
  - intros c Hin. rewrite map_cells_names.
    destruct (coords_names _ _ _ _ Hin) as [j ->].
    intros Hd. apply Hn in Hd. simpl in Hd. intuition discriminate.
Qed.

Lemma components_frame_result_witness :
  components_frame sample_desc sample_pca
  = Ok (mkDF [Num 1001; Num 1003]
          (combine [CStr "c1"; CStr "c2"; CStr "c3"; CStr "c4"; CStr "c5"]
                   (map (map Coord) (firstn 5 sample_pca)))).
Proof.
  apply (@components_frame_result sample_desc sample_pca).
  - reflexivity.
  - exact sample_desc_rectangular.
  - intros l. simpl. intuition.
  - exact sample_pca_lengths.
Defined.

(** ** Listing the rows of a cluster *)

Lemma filter_has_label_map {A B} (g : list A -> list B) (name : clabel)
    (cols : list (clabel * list A)) :
  filter (has_label name) (map (fun c => (fst c, g (snd c))) cols)
  = map (fun c => (fst c, g (snd c))) (filter (has_label name) cols).
Proof.
  induction cols as [|c cols IH]; [reflexivity|].
  cbn [map filter].
  change (has_label name (fst c, g (snd c))) with (has_label name c).
  destruct (has_label name c); cbn [map]; rewrite IH; reflexivity.
Qed.

(** Selecting rows and then a column is selecting the column and then its
    rows. *)
Lemma loc_rows_loc_col {A} (df : DataFrame A) (mask : list bool) (name : clabel) :
  loc_col (loc_rows df mask) name
  = x <- loc_col df name ;; Ok (take_rows mask x).
Proof.
  unfold loc_col, loc_rows. cbn [columns].
  rewrite (filter_has_label_map (take_rows mask)).
  destruct (filter (has_label name) (columns df)) as [|c [|c' l]]; reflexivity.
Qed.

Lemma take_rows_combine_In {A B} (m : list bool) (l : list A) (l' : list B) a b :
  In (a, b) (combine (take_rows m l) (take_rows m l')) ->
  exists i, nth_error m i = Some true /\ nth_error l i = Some a /\
            nth_error l' i = Some b.
Proof.
  revert l l'; induction m as [|x m IH]; intros l l' H.
  - rewrite take_rows_nil_l in H. contradiction.
  - destruct l as [|a0 l]; [unfold take_rows in H; simpl in H; contradiction|].
    destruct l' as [|b0 l'].
    + replace (take_rows (x :: m) (@nil B)) with (@nil B) in H by reflexivity.
      rewrite combine_nil in H. contradiction.
    + rewrite !take_rows_cons in H. destruct x.
      * destruct H as [H|H].
        -- injection H as <- <-. exists 0. repeat split.
        -- destruct (IH _ _ H) as [i Hi]. exists (S i). exact Hi.
      * destruct (IH _ _ H) as [i Hi]. exists (S i). exact Hi.
Qed.

Lemma take_rows_combine_nth {A B} (m : list bool) (l : list A) (l' : list B) i a b :
  nth_error m i = Some true -> nth_error l i = Some a -> nth_error l' i = Some b ->
  In (a, b) (combine (take_rows m l) (take_rows m l')).
Proof.
  revert m l l'; induction i as [|i IH]; intros [|x m] [|a0 l] [|b0 l'] Hm Hl Hl';
    try discriminate; simpl in Hm, Hl, Hl'; rewrite !take_rows_cons.
  - injection Hm as ->. injection Hl as ->. injection Hl' as ->. left; reflexivity.
  - destruct x; [right|]; eapply IH; eauto.
Qed.

Lemma take_rows_length {A} (m : list bool) (l : list A) :
  length (take_rows m l) <= length l.
Proof.
  unfold take_rows. rewrite length_map.
  etransitivity; [apply filter_length_le|].
  rewrite length_combine. lia.
Qed.

Lemma firstn_In_list {A} (k : nat) (l : list A) (a : A) :
  In a (firstn k l) -> In a l.
Proof.
  intros H. apply firstn_In_nth in H. destruct H as [i [_ H]].
  eapply nth_error_In; exact H.
Qed.

(** X13: a cluster listing holds at most 500 entries, and each of them is the
    label and the description of a row whose cluster number is the one
    asked for. *)
Theorem cluster_listing_sound (pca_df : DataFrame cell) (k : nat)
    (listing : list (value * cell)) :
  cluster_listing pca_df k = Ok listing ->
  length listing <= 500 /\
  exists cl sd,
    loc_col pca_df Cluster_col = Ok cl /\ loc_col pca_df Shrt_Desc = Ok sd /\
    forall lab d, In (lab, d) listing ->
      exists i c, nth_error (index pca_df) i = Some lab /\
                  nth_error sd i = Some d /\
                  nth_error cl i = Some c /\ cell_eqb_nat c k = true.
Proof.
  unfold cluster_listing. intros H.
  destruct (loc_col pca_df Cluster_col) as [cl|e]; cbn [bind] in H; [|discriminate].
  cbv zeta in H. rewrite loc_rows_loc_col in H.
  destruct (loc_col pca_df Shrt_Desc) as [sd|e]; cbn [bind] in H; [|discriminate].
  match type of H with Ok ?t = _ => assert (E : listing = t) by congruence end.
  clear H. subst listing. cbn [loc_rows index]. split; [apply firstn_le_length|].
  exists cl, sd. split; [reflexivity|]. split; [reflexivity|].
  intros lab d Hin. apply firstn_In_list in Hin.
  apply take_rows_combine_In in Hin. destruct Hin as [i [Hm [Hi Hs]]].
  rewrite nth_error_map in Hm.
  destruct (nth_error cl i) as [c|] eqn:Ec; [|discriminate].
  simpl in Hm. injection Hm as Hm. exists i, c. auto.
Qed.

(** X14: on a frame of at most 500 rows that has the two columns, the listing
    succeeds and misses no row of the cluster. *)
Theorem cluster_listing_complete (pca_df : DataFrame cell) (k : nat)
    (cl sd : list cell) :
  loc_col pca_df Cluster_col = Ok cl ->
  loc_col pca_df Shrt_Desc = Ok sd ->
  length (index pca_df) <= 500 ->
  exists listing,
    cluster_listing pca_df k = Ok listing /\
    forall i c lab d,
      nth_error cl i = Some c -> cell_eqb_nat c k = true ->
      nth_error (index pca_df) i = Some lab -> nth_error sd i = Some d ->
      In (lab, d) listing.
Proof.
  intros Hcl Hsd Hlen. unfold cluster_listing.
  rewrite Hcl. cbn [bind]. cbv zeta. rewrite loc_rows_loc_col, Hsd. cbn [bind].
  eexists. split; [reflexivity|].
  intros i c lab d Hc Hk Hi Hd. cbn [loc_rows index].
  rewrite firstn_all2.
  - apply take_rows_combine_nth with (i := i); [|exact Hi | exact Hd].
    rewrite nth_error_map, Hc. simpl. rewrite Hk. reflexivity.
  - rewrite length_combine.
    pose proof (take_rows_length (map (fun c0 => cell_eqb_nat c0 k) cl) (index pca_df)).
    lia.
Qed.

Lemma sample_clustered :
  clustered sample_desc sample_pca [0; 1]
  = Ok (mkDF [Num 1001; Num 1003]
          (combine (map CInt (seq 0 5)) (map (map Coord) (firstn 5 sample_pca))
           ++ (Cluster_col, [Cluster 0; Cluster 1])
              :: map (fun c => (fst c, map Desc (snd c))) (columns sample_desc))).
Proof. reflexivity. Qed.

Lemma cluster_listing_sound_witness :
  exists out,
    clustered sample_desc sample_pca [0; 1] = Ok out /\
    cluster_listing out 1 = Ok [(Num 1003, Desc (Str "CHEESE"))] /\
    length [(Num 1003, Desc (Str "CHEESE"))] <= 500.
Proof.
  eexists. split; [exact sample_clustered|].
  assert (E : cluster_listing
                (mkDF [Num 1001; Num 1003]
                   (combine (map CInt (seq 0 5)) (map (map Coord) (firstn 5 sample_pca))
                    ++ (Cluster_col, [Cluster 0; Cluster 1])
                       :: map (fun c => (fst c, map Desc (snd c))) (columns sample_desc)))
                1 = Ok [(Num 1003, Desc (Str "CHEESE"))]) by reflexivity.
  split; [exact E|].
  exact (proj1 (@cluster_listing_sound _ 1 _ E)).
Defined.

Lemma cluster_listing_complete_witness :
  exists listing,
    cluster_listing
      (mkDF [Num 1001; Num 1003]
         [(Cluster_col, [Cluster 0; Cluster 0]);
          (Shrt_Desc, [Desc (Str "BUTTER"); Desc (Str "CHEESE")])]) 0 = Ok listing /\
    In (Num 1001, Desc (Str "BUTTER")) listing /\
    In (Num 1003, Desc (Str "CHEESE")) listing.
Proof.
  destruct (@cluster_listing_complete
              (mkDF [Num 1001; Num 1003]
                 [(Cluster_col, [Cluster 0; Cluster 0]);
                  (Shrt_Desc, [Desc (Str "BUTTER"); Desc (Str "CHEESE")])]) 0
              [Cluster 0; Cluster 0] [Desc (Str "BUTTER"); Desc (Str "CHEESE")]
              eq_refl eq_refl ltac:(simpl; lia)) as [listing [H1 H2]].
  exists listing. split; [exact H1|]. split.
  - apply (H2 0 (Cluster 0)); reflexivity.
  - apply (H2 1 (Cluster 0)); reflexivity.
Defined.

(** ** Series and loadings *)

Lemma combine_map_fst {A B} (a : list A) (b : list B) :
  length a = length b -> map fst (combine a b) = a.
Proof.
  revert b; induction a as [|x a IH]; intros [|y b] H; simpl in *;
    try reflexivity; try discriminate.
  f_equal. apply IH. lia.
Qed.

Lemma combine_map_snd {A B} (a : list A) (b : list B) :
  length a = length b -> map snd (combine a b) = b.
Proof.
  revert b; induction a as [|x a IH]; intros [|y b] H; simpl in *;
    try reflexivity; try discriminate.
  f_equal. apply IH. lia.
Qed.

(** X15: a series is built exactly when there are as many values as labels
    ([ValueError] otherwise), and it then gives back the labels and the
    values it was built from, in their order. *)
Theorem Series_round_trip {A} (data : list A) (ix : list clabel) :
  (length data = length ix ->
   exists s, Series data ix = Ok s /\ map fst s = ix /\ map snd s = data) /\
  (length data <> length ix -> Series data ix = Error ValueError).
Proof.
  unfold Series. split; intros H.
  - rewrite H, Nat.eqb_refl. eexists. split; [reflexivity|].
    split; [apply combine_map_fst | apply combine_map_snd]; congruence.
  - apply Nat.eqb_neq in H. rewrite H. reflexivity.
Qed.

(** X16: only the first five components are kept in [vects]: asking for the
    loadings of a component beyond them raises [IndexError], however many
    components the analysis found. *)
Theorem component_loadings_beyond_five (lib : NumericLibrary) (X : matrix)
    (nutr_df : DataFrame Q) (k : nat) :
  5 <= k -> component_loadings lib X nutr_df k = Error IndexError.
Proof.
  intros H. unfold component_loadings.
  destruct (nth_error (firstn 5 (pca_components lib X)) k) as [v|] eqn:E;
    [|reflexivity].
  assert (k < length (firstn 5 (pca_components lib X)))
    by (apply nth_error_Some; congruence).
  pose proof (firstn_le_length 5 (pca_components lib X)). lia.
Qed.

Lemma component_loadings_beyond_five_witness :
  5 <= 5 /\
  component_loadings sample_library sample_pca sample_nutr 5 = Error IndexError.
Proof.
  split; [lia|].
  exact (@component_loadings_beyond_five sample_library sample_pca sample_nutr 5
           (le_n 5)).
Defined.

(** ** Explained variance *)

Open Scope R_scope.

Lemma cumsum_from_nth (acc : R) (x : list R) (k : nat) :
  (k < length x)%nat ->
  nth_error (cumsum_from acc x) k = Some (acc + Rsum (firstn (S k) x)).
Proof.
  revert acc k; induction x as [|a x IH]; intros acc k Hk; [simpl in Hk; lia|].
  destruct k as [|k].
  - simpl. f_equal. destruct x; simpl; ring.
  - cbn [cumsum_from nth_error]. rewrite IH by (simpl in Hk; lia).
    f_equal. change (firstn (S (S k)) (a :: x)) with (a :: firstn (S k) x).
    cbn [Rsum fold_right]. unfold Rsum. ring.
Qed.

Lemma cumsum_from_length (acc : R) (x : list R) :
  length (cumsum_from acc x) = length x.
Proof.
  revert acc; induction x as [|a x IH]; intros acc; simpl; [reflexivity|].
  rewrite IH. reflexivity.
Qed.

(** X17: the cumulative sums have one entry per ratio, the entry at position
    [k] is the sum of the first [k + 1] ratios, and so the variance
    retained by five components, [ratio[:5].sum()], is the entry at
    position 4 of [ratio.cumsum()] as soon as there are five components. *)
Theorem cumsum_partial_sums (ratio : list R) :
  length (cumsum ratio) = length ratio /\
  (forall k, (k < length ratio)%nat ->
     nth_error (cumsum ratio) k = Some (Rsum (firstn (S k) ratio))) /\
  ((5 <= length ratio)%nat ->
     nth_error (cumsum ratio) 4 = Some (retained_variance ratio)).
Proof.
  assert (H : forall k, (k < length ratio)%nat ->
                nth_error (cumsum ratio) k = Some (Rsum (firstn (S k) ratio))).
  { intros k Hk. unfold cumsum. rewrite cumsum_from_nth by exact Hk.
    f_equal. ring. }
  split; [apply cumsum_from_length|]. split; [exact H|].
  intros H5. unfold retained_variance. apply H. lia.
Qed.

Lemma cumsum_from_monotone (acc : R) (x : list R) (k : nat) (u v : R) :
  Forall (fun r => 0 <= r) x ->
  nth_error (cumsum_from acc x) k = Some u ->
  nth_error (cumsum_from acc x) (S k) = Some v ->
  acc <= u <= v.
Proof.
  intros Hx. revert acc k. induction Hx as [|a x Ha Hx IH]; intros acc k Hu Hv.
  - destruct k; discriminate.
  - destruct k as [|k].
    + simpl in Hu. injection Hu as <-.
      destruct x as [|b x]; [discriminate|].
      simpl in Hv. injection Hv as <-.
      inversion Hx; subst. lra.
    + cbn [cumsum_from nth_error] in Hu, Hv.
      specialize (IH _ _ Hu Hv). lra.
Qed.

(** X18: when no ratio is negative, the cumulative sums never decrease: the
    curve the notebook plots is non-decreasing. *)
Theorem cumsum_non_decreasing (ratio : list R) (k : nat) (u v : R) :
  Forall (fun r => 0 <= r) ratio ->
  nth_error (cumsum ratio) k = Some u ->
  nth_error (cumsum ratio) (S k) = Some v ->
  u <= v.
Proof.
  intros Hx Hu Hv. unfold cumsum in *.
  pose proof (cumsum_from_monotone 0 k Hx Hu Hv). lra.
Qed.

Lemma cumsum_non_decreasing_witness :
  Forall (fun r => 0 <= r) sample_ratio /\
  nth_error (cumsum sample_ratio) 0 = Some (0 + 0.5) /\
  nth_error (cumsum sample_ratio) 1 = Some (0 + 0.5 + 0.25) /\
  0 + 0.5 <= 0 + 0.5 + 0.25.
Proof.
  assert (H : Forall (fun r => 0 <= r) sample_ratio).
  { unfold sample_ratio. repeat constructor; lra. }
  split; [exact H|]. split; [reflexivity|]. split; [reflexivity|].
  exact (@cumsum_non_decreasing sample_ratio 0 (0 + 0.5) (0 + 0.5 + 0.25)
           H eq_refl eq_refl).
Defined.

(** ** The mean of the standardized array *)

Lemma Rsum_app (x y : list R) : Rsum (x ++ y) = Rsum x + Rsum y.
Proof. induction x as [|a x IH]; simpl; [ring | rewrite IH; ring]. Qed.

Lemma scale_column_sum (x : list R) : Rsum (scale_column x) = 0.
Proof.
  destruct x as [|a x]; [reflexivity|].
  assert (Hn : INR (length (a :: x)) <> 0) by (apply not_0_INR; discriminate).
  pose proof (@scale_column_mean (a :: x) Hn) as H.
  unfold mean in H. unfold scale_column in H at 2. rewrite length_map in H.
  apply (Rmult_eq_compat_r (INR (length (a :: x)))) in H.
  unfold Rdiv in H. rewrite Rmult_assoc, Rinv_l, Rmult_1_r, Rmult_0_l in H by exact Hn.
  exact H.
Qed.

Lemma standardized_sum (X : matrix) :
  Rsum (concat (StandardScaler_fit_transform X)) = 0.
Proof.
  induction X as [|x X IH]; [reflexivity|].
  unfold StandardScaler_fit_transform in *. cbn [map concat].
  rewrite Rsum_app, IH, scale_column_sum. ring.
Qed.

(** X19: the mean of all the entries of the standardized array, which the
    notebook prints, is 0 as soon as the array has an entry, constant
    columns included. *)
Theorem standardized_array_mean (X : matrix) :
  concat X <> [] ->
  array_mean (StandardScaler_fit_transform X) = 0.
Proof.
  intros _. unfold array_mean, mean. rewrite standardized_sum.
  unfold Rdiv. ring.
Qed.

Lemma standardized_array_mean_witness :
  concat sample_array <> [] /\
  array_mean (StandardScaler_fit_transform sample_array) = 0.
Proof.
  assert (H : concat sample_array <> []) by discriminate.
  split; [exact H | exact (@standardized_array_mean sample_array H)].
Defined.

Close Scope R_scope.

(** ** The rows the cleaning keeps *)

Lemma filter_map_comm {A B} (f : B -> bool) (g : A -> B) (l : list A) :
  filter f (map g l) = map g (filter (fun x => f (g x)) l).
Proof.
  induction l as [|a l IH]; [reflexivity|].
  cbn [map filter]. destruct (f (g a)); cbn [map]; rewrite IH; reflexivity.
Qed.

(** Selecting with a mask is reading the positions where the mask holds. *)
Lemma take_rows_positions {A} (d : A) (m : list bool) (l : list A) :
  length l = length m ->
  take_rows m l
  = map (fun i => nth i l d) (filter (fun i => nth i m false) (seq 0 (length m))).
Proof.
  revert l; induction m as [|b m IH]; intros [|a l] H; try discriminate;
    [reflexivity|].
  rewrite take_rows_cons, (IH l) by (simpl in H; lia).
  cbn [length seq filter nth]. rewrite <- seq_shift, filter_map_comm.
  destruct b; cbn [map nth]; rewrite map_map; reflexivity.
Qed.

Lemma nth_map_seq {B} (f : nat -> B) (d : B) (n i : nat) :
  i < n -> nth i (map f (seq 0 n)) d = f i.
Proof.
  intros H. rewrite (nth_indep _ d (f 0)) by (rewrite length_map, length_seq; exact H).
  rewrite map_nth, seq_nth by exact H. reflexivity.
Qed.

Lemma dropna_mask_positions (t : DataFrame value) :
  filter (fun i => nth i (dropna_mask t) false) (seq 0 (length (dropna_mask t)))
  = filter (row_notnull t) (seq 0 (length (index t))).
Proof.
  rewrite dropna_mask_length. apply filter_ext_in. intros i Hi.
  apply in_seq in Hi. unfold dropna_mask. apply nth_map_seq. lia.
Qed.

Lemma nth_map_in_range {A B} (f : A -> B) (l : list A) (d : B) (d0 : A) (k : nat) :
  k < length l -> nth k (map f l) d = f (nth k l d0).
Proof.
  intros H. rewrite (nth_indep _ d (f d0)) by (rewrite length_map; exact H).
  apply map_nth.
Qed.

Lemma map_nth_positions {A B} (F : A -> B) (d0 : A) (l : list A) :
  map (fun k => F (nth k l d0)) (seq 0 (length l)) = map F l.
Proof.
  rewrite <- (map_map (fun k => nth k l d0) F), map_nth_seq_id. reflexivity.
Qed.

Lemma row_complete (t : DataFrame value) (i : nat) :
  rectangular t -> i < length (index t) ->
  forallb notnull (snd (row_at NaN t i)) = row_notnull t i.
Proof.
  unfold rectangular, row_at, row_notnull. cbn [snd]. intros Hr Hi.
  induction Hr as [|c cols Hc Hr IH]; [reflexivity|].
  cbn [map forallb]. rewrite IH. f_equal.
  rewrite (nth_error_nth' (snd c) NaN) by lia. reflexivity.
Qed.

(** X7: on a rectangular table, the cleaned table consists of exactly the
    rows that miss no value, with their labels and their cells, in the
    order they had; it is rectangular again. *)
Theorem dropna_keeps_complete_rows (t : DataFrame value) :
  rectangular t ->
  rows NaN (dropna t) = filter (fun r => forallb notnull (snd r)) (rows NaN t) /\
  rectangular (dropna t).
Proof.
  intros Hr. split; [|apply dropna_rectangular; exact Hr].
  set (P := filter (row_notnull t) (seq 0 (length (index t)))).
  assert (Hsel : forall l : list value, length l = length (index t) ->
            take_rows (dropna_mask t) l = map (fun i => nth i l NaN) P).
  { intros l Hl. rewrite (take_rows_positions NaN).
    - rewrite dropna_mask_positions. reflexivity.
    - rewrite dropna_mask_length. exact Hl. }
  assert (Hrow : forall k, k < length P ->
            row_at NaN (dropna t) k = row_at NaN t (nth k P 0)).
  { intros k Hk. unfold row_at, dropna. cbn [index columns]. f_equal.
    - rewrite Hsel by reflexivity.
      exact (@nth_map_in_range _ _ (fun i => nth i (index t) NaN) P NaN 0 k Hk).
    - rewrite map_map. cbn [snd]. apply map_ext_in. intros c Hc.
      unfold rectangular in Hr. rewrite Forall_forall in Hr.
      rewrite Hsel by (apply Hr; exact Hc).
      exact (@nth_map_in_range _ _ (fun i => nth i (snd c) NaN) P NaN 0 k Hk). }
  assert (Hlen : length (index (dropna t)) = length P).
  { unfold dropna. cbn [index]. rewrite Hsel by reflexivity. apply length_map. }
  unfold rows at 1. rewrite Hlen.
  rewrite (map_ext_in _ (fun k => row_at NaN t (nth k P 0))).
  2:{ intros k Hk. apply in_seq in Hk. apply Hrow. lia. }
  rewrite (map_nth_positions (row_at NaN t) 0 P).
  unfold rows. rewrite filter_map_comm. f_equal. unfold P.
  apply filter_ext_in. intros i Hi. apply in_seq in Hi.
  symmetry. apply row_complete; [exact Hr | lia].
Qed.

Lemma sample_table_rectangular : rectangular sample_table.
Proof.
  unfold rectangular. apply Forall_forall. intros [n x] Hc.
  unfold sample_table in Hc; cbn [columns index] in Hc |- *.
  apply in_combine_r in Hc. apply in_map_iff in Hc. destruct Hc as [i [<- _]].
  reflexivity.
Qed.

Lemma dropna_keeps_complete_rows_witness :
  rectangular sample_table /\
  rows NaN (dropna sample_table)
  = filter (fun r => forallb notnull (snd r)) (rows NaN sample_table) /\
  map fst (rows NaN sample_table) = [Num 0; Num 1; Num 2] /\
  map fst (rows NaN (dropna sample_table)) = [Num 0; Num 2].
Proof.
  split; [exact sample_table_rectangular|].
  split; [exact (proj1 (@dropna_keeps_complete_rows sample_table
                          sample_table_rectangular))|].
  split; reflexivity.
Defined.

(** ** The rows of a left join *)

Lemma combine_seq_In {A} (l : list A) (k j : nat) (x : A) :
  In (j, x) (combine (seq k (length l)) l) <->
  k <= j /\ nth_error l (j - k) = Some x.
Proof.
  revert k; induction l as [|a l IH]; intros k.
  - simpl. split; [contradiction|]. intros [_ H]. destruct (j - k); discriminate.
  - cbn [length seq combine In]. rewrite IH. split.
    + intros [H|[H1 H2]].
      * injection H as <- <-. split; [lia|]. rewrite Nat.sub_diag. reflexivity.
      * split; [lia|]. replace (j - k) with (S (j - S k)) by lia. exact H2.
    + intros [H1 H2]. destruct (Nat.eq_dec j k) as [->|Hne].
      * left. rewrite Nat.sub_diag in H2. simpl in H2. congruence.
      * right. split; [lia|]. replace (j - k) with (S (j - S k)) in H2 by lia.
        exact H2.
Qed.

Lemma locate_In (r : list value) (lab : value) (j : nat) :
  In j (locate r lab) <->
  exists x, nth_error r j = Some x /\ value_eqb x lab = true.
Proof.
  unfold locate. rewrite in_map_iff. split.
  - intros [[j' x] [E H]]. cbn [fst] in E. subst j'.
    apply filter_In in H. destruct H as [H Hx].
    apply combine_seq_In in H. destruct H as [_ H]. rewrite Nat.sub_0_r in H.
    exists x. auto.
  - intros [x [H Hx]]. exists (j, x). split; [reflexivity|].
    apply filter_In. split; [|exact Hx].
    apply combine_seq_In. split; [lia|]. rewrite Nat.sub_0_r. exact H.
Qed.

Lemma locate_nil (r : list value) (lab : value) :
  (forall x, In x r -> value_eqb x lab = false) -> locate r lab = [].
Proof.
  intros H. destruct (locate r lab) as [|j js] eqn:E; [reflexivity|].
  assert (Hj : In j (locate r lab)) by (rewrite E; left; reflexivity).
  apply locate_In in Hj. destruct Hj as [x [Hx Hb]].
  apply nth_error_In in Hx. rewrite (H x Hx) in Hb. discriminate.
Qed.

(** The rows of a left join: a left row with each right row that carries
    its label, or alone when there is none. *)
Lemma join_rows_In (l r : list value) (i : nat) (partner : option nat) :
  In (i, partner) (join_rows l r) <->
  i < length l /\
  match partner with
  | Some j => In j (locate r (nth i l NaN))
  | None => locate r (nth i l NaN) = []
  end.
Proof.
  unfold join_rows. rewrite in_flat_map. split.
  - intros [i0 [Hi0 H]]. apply in_seq in Hi0.
    destruct (locate r (nth i0 l NaN)) as [|j0 js] eqn:E.
    + destruct H as [H|[]]. injection H as <- <-. split; [lia | exact E].
    + apply in_map_iff in H. destruct H as [j [H Hj]]. injection H as <- <-.
      split; [lia|]. rewrite E. exact Hj.
  - intros [Hi H]. exists i. split; [apply in_seq; lia|].
    destruct partner as [j|].
    + destruct (locate r (nth i l NaN)) as [|j0 js]; [contradiction|].
      apply (in_map (fun j' => (i, Some j'))). exact H.
    + rewrite H. left; reflexivity.
Qed.

Lemma join_rows_view {A} (na : A) (left right out : DataFrame A) :
  join na left right = Ok out ->
  rows na out
  = map (fun p => joined_row na left right (fst p) (snd p))
        (join_rows (index left) (index right)).
Proof.
  unfold join. destruct (existsb _ (columns left)); intros H; [discriminate|].
  injection H as <-. unfold rows. cbn [index]. rewrite length_map.
  set (RL := join_rows (index left) (index right)).
  rewrite <- (map_nth_positions (fun p => joined_row na left right (fst p) (snd p))
                (0, None) RL).
  apply map_ext_in. intros k Hk. apply in_seq in Hk.
  assert (Hlt : k < length RL) by lia.
  unfold row_at, joined_row. cbn [index columns]. f_equal.
  - exact (@nth_map_in_range _ _ (fun p => nth (fst p) (index left) NaN)
             RL NaN (0, None) k Hlt).
  - rewrite map_app, !map_map. cbn [snd]. f_equal; apply map_ext; intros c.
    + exact (@nth_map_in_range _ _ (fun p => nth (fst p) (snd c) na)
               RL na (0, None) k Hlt).
    + exact (@nth_map_in_range _ _
               (fun p : nat * option nat =>
                  match snd p with Some j => nth j (snd c) na | None => na end)
               RL na (0, None) k Hlt).
Qed.

(** X10: a successful join never loses a row of the left frame.  Each
    left row appears with every right row that carries its label, the
    cells of both side by side, and a left row without a partner appears
    with the fill value in the right-hand columns; every row of the result
    is a left row.  The result is rectangular whatever the frames, and its
    columns are those of the left frame followed by those of the right
    frame. *)
Theorem join_keeps_left_rows {A} (na : A) (left right out : DataFrame A) :
  join na left right = Ok out ->
  length (index left) <= length (index out) /\
  rectangular out /\
  names out = names left ++ names right /\
  (forall i lab, nth_error (index left) i = Some lab ->
     (forall j lab', nth_error (index right) j = Some lab' ->
        value_eqb lab' lab = true ->
        In (joined_row na left right i (Some j)) (rows na out)) /\
     ((forall x, In x (index right) -> value_eqb x lab = false) ->
      In (joined_row na left right i None) (rows na out))) /\
  (forall row, In row (rows na out) ->
     exists i partner, i < length (index left) /\
                       row = joined_row na left right i partner).
Proof.
  intros H. pose proof (join_rows_view _ _ _ H) as Hview.
  split; [|split; [|split; [|split]]].
  - unfold join in H. destruct (existsb _ (columns left)); [discriminate|].
    injection H as <-. cbn [index]. rewrite length_map. apply join_rows_length.
  - unfold join in H. destruct (existsb _ (columns left)); [discriminate|].
    injection H as <-. unfold rectangular. cbn [index columns].
    apply Forall_forall. intros c Hc. apply in_app_or in Hc.
    destruct Hc as [Hc|Hc]; apply in_map_iff in Hc; destruct Hc as [c0 [<- _]];
      cbn [snd]; rewrite !length_map; reflexivity.
  - unfold join in H. destruct (existsb _ (columns left)); [discriminate|].
    injection H as <-. unfold names. cbn [columns]. rewrite map_app, !map_map.
    reflexivity.
  - intros i lab Hi.
    assert (Hlt : i < length (index left)) by (apply nth_error_Some; congruence).
    assert (Hnth : nth i (index left) NaN = lab).
    { apply nth_error_nth with (d := NaN) in Hi. exact Hi. }
    split.
    + intros j lab' Hj Hb. rewrite Hview.
      apply (in_map (fun p => joined_row na left right (fst p) (snd p)) _ (i, Some j)).
      apply join_rows_In. split; [exact Hlt|]. rewrite Hnth.
      apply locate_In. exists lab'. auto.
    + intros Hnone. rewrite Hview.
      apply (in_map (fun p => joined_row na left right (fst p) (snd p)) _ (i, None)).
      apply join_rows_In. split; [exact Hlt|]. rewrite Hnth.
      apply locate_nil. exact Hnone.
  - intros row Hrow. rewrite Hview in Hrow. apply in_map_iff in Hrow.
    destruct Hrow as [[i partner] [<- Hp]]. apply join_rows_In in Hp.
    exists i, partner. split; [tauto | reflexivity].
Qed.

Lemma join_keeps_left_rows_witness :
  exists out,
    join NaN (mkDF [Num 1001; Num 1002; Num 1003] [(CStr "c1", [Num 1; Num 2; Num 3])])
             sample_desc = Ok out /\
    index out = [Num 1001; Num 1002; Num 1003] /\
    loc_col out Shrt_Desc = Ok [Str "BUTTER"; NaN; Str "CHEESE"] /\
    rectangular out /\
    In (Num 1002, [Num 2; NaN; NaN; NaN; NaN; NaN; NaN]) (rows NaN out).
Proof.
  destruct (join NaN (mkDF [Num 1001; Num 1002; Num 1003]
                           [(CStr "c1", [Num 1; Num 2; Num 3])]) sample_desc)
    as [o|e] eqn:E; [|vm_compute in E; discriminate].
  exists o. split; [reflexivity|].
  pose proof (@join_keeps_left_rows _ NaN _ _ o E) as [_ [Hr [_ [Hrows _]]]].
  destruct (Hrows 1 (Num 1002) eq_refl) as [_ Hnone].
  assert (Hin : In (Num 1002, [Num 2; NaN; NaN; NaN; NaN; NaN; NaN]) (rows NaN o)).
  { apply Hnone. intros x Hx. simpl in Hx. destruct Hx as [<-|[<-|[]]]; reflexivity. }
  vm_compute in E. injection E as <-.
  split; [reflexivity|]. split; [reflexivity|]. split; [exact Hr | exact Hin].
Defined.
